(** * QR code service: storage-tier fallback chain

    A shallow embedding of [src/services/qrService.js] (class [QRService]),
    the cache helpers of [src/config/redis.js], the scan log of
    [src/config/sqlite.js], the PostgreSQL wrapper of
    [src/config/database.js], the handlers of [src/routes/qrRoutes.js] and
    [src/routes/healthRoutes.js], and [src/middleware/errorHandler.js].

    Conventions of the embedding:
    - instants ([Date], [NOW()]) are milliseconds since the epoch, as [Z];
      a [Date] and its [toISOString()] text are not told apart, as in the
      JSON the routes send;
    - SQLite keeps a timestamp as text and compares it as text: the text of
      [CURRENT_TIMESTAMP] and [datetime('now')] is kept apart from an ISO
      text ([Timestamp]), and the SQLite predicates on [expires_at] are the
      comparisons of the two texts ([text_ltb]); PostgreSQL compares
      instants (its session and the process share a time zone);
    - numbers are integers ([Z]); [expiryHours] ranges over whole hours;
    - an [async] function is a state transformer over [World] that either
      completes normally or throws ([Completion]); [try]/[catch] is
      [try_catch];
    - a nullable column and an absent or [undefined] property are [None];
    - [console.*] calls are omitted. *)

From Stdlib Require Import ZArith String Ascii List Bool Lia.
From stdpp Require Import base option gmap strings list fin_maps pretty.

Open Scope string_scope.
Open Scope Z_scope.

(** ** Data model *)

(** A timestamp as the program holds it.  [Instant ms] is a JavaScript
    [Date], or its [toISOString()] text ['YYYY-MM-DDTHH:MM:SS.sssZ'];
    [SqliteText s] is the text ['YYYY-MM-DD HH:MM:SS'] that SQLite writes
    for [CURRENT_TIMESTAMP] and [datetime('now')], [s] being the whole
    seconds since the epoch. *)
Inductive Timestamp : Type :=
| Instant (ms : Z)
| SqliteText (seconds : Z).

(** A row of [qr_codes], and equally the object bound to [qrRecord] in the
    service.  [expires_at] is the instant of expiry; the SQLite column holds
    its [toISOString()] text.  The object stored in [memoryStore] carries
    neither [user_id], [metadata] nor [is_active]: those properties are
    [None] there. *)
Record QRRecord : Type := mkQRRecord {
  rec_id : string;
  rec_data : string;
  qr_image_url : string;
  created_at : Timestamp;
  expires_at : option Z;
  access_count : Z;
  user_id : option string;
  metadata : option string;
  is_active : option bool
}.

(** A row of [qr_scan_logs]. *)
Record ScanLog : Type := mkScanLog {
  qr_id : string;
  scanned_at : Timestamp;
  scanner_ip : option string;
  scanner_user_agent : option string;
  scanner_location : option string;
  scan_metadata : string
}.

(** The object returned by [generateQR] and [getQR]. *)
Record PublicQR : Type := mkPublicQR {
  id : string;
  data : string;
  qrImageUrl : string;
  createdAt : Timestamp;
  expiresAt : option Z;
  accessCount : Z
}.

(** The object returned by [getStats]: every field is a string. *)
Record Stats : Type := mkStats {
  total_codes : string;
  active_codes : string;
  total_accesses : string;
  total_scans : string;
  unique_scanners : string;
  scanned_codes : string
}.

(** The row returned by [getScanStats]. *)
Record ScanStats : Type := mkScanStats {
  ss_scanned_codes : Z;
  ss_total_scans : Z;
  ss_unique_scanners : Z
}.

(** [process.env], restricted to the two variables the service reads. *)
Record Env : Type := mkEnv {
  QR_CODE_EXPIRY_HOURS : option string;
  NODE_ENV : option string
}.

(** The SQLite handle [db] of [sqlite.js].  [sqlite_ok = false] stands for a
    handle on which every statement fails. *)
Record Sqlite : Type := mkSqlite {
  sqlite_ok : bool;
  sqlite_qr_codes : gmap string QRRecord;
  qr_scan_logs : list ScanLog
}.

(** The PostgreSQL [pool] of [database.js]. *)
Record Postgres : Type := mkPostgres {
  pg_ok : bool;
  pg_qr_codes : gmap string QRRecord
}.

(** The Redis [client] of [redis.js].  An entry is the serialised record
    with the instant at which the key expires. *)
Record Redis : Type := mkRedis {
  isOpen : bool;
  redis_ok : bool;
  redis_keys : gmap string (QRRecord * Z)
}.

Record World : Type := mkWorld {
  env : Env;
  clock : Z;
  db : option Sqlite;
  pool : option Postgres;
  client : option Redis;
  memoryStore : gmap string QRRecord
}.

Definition set_env (e : Env) (w : World) : World :=
  mkWorld e (clock w) (db w) (pool w) (client w) (memoryStore w).
Definition set_db (d : option Sqlite) (w : World) : World :=
  mkWorld (env w) (clock w) d (pool w) (client w) (memoryStore w).
Definition set_pool (p : option Postgres) (w : World) : World :=
  mkWorld (env w) (clock w) (db w) p (client w) (memoryStore w).
Definition set_client (c : option Redis) (w : World) : World :=
  mkWorld (env w) (clock w) (db w) (pool w) c (memoryStore w).
Definition set_memoryStore (m : gmap string QRRecord) (w : World) : World :=
  mkWorld (env w) (clock w) (db w) (pool w) (client w) m.

(** ** Completions and the [async] monad *)

Inductive Completion (A : Type) : Type :=
| Normal (a : A)
| Throw (message : string).
Arguments Normal {A} a.
Arguments Throw {A} message.

Definition Js (A : Type) : Type := World → Completion A * World.

Definition ret {A} (a : A) : Js A := λ w, (Normal a, w).
Definition throw {A} (message : string) : Js A := λ w, (Throw message, w).
Definition bind {A B} (c : Js A) (k : A → Js B) : Js B := λ w,
  match c w with
  | (Normal a, w') => k a w'
  | (Throw e, w') => (Throw e, w')
  end.
Definition try_catch {A} (body : Js A) (handler : string → Js A) : Js A := λ w,
  match body w with
  | (Normal a, w') => (Normal a, w')
  | (Throw e, w') => handler e w'
  end.
Definition get_world : Js World := λ w, (Normal w, w).
Definition modify (f : World → World) : Js unit := λ w, (Normal tt, f w).

(** [promise.catch(handler)] on a promise nobody awaits: the effects of the
    call happen, its completion is discarded. *)
Definition detached {A} (c : Js A) : Js unit := λ w, (Normal tt, (c w).2).

Notation "'do' x <- c ; k" := (bind c (λ x, k))
  (at level 10, x name, c at level 100, k at level 200, only parsing).
Notation "'exec' c ; k" := (bind c (λ _, k))
  (at level 10, c at level 100, k at level 200, only parsing).

(** ** JavaScript helpers *)

(** Truthiness of a string-or-undefined value. *)
Definition truthy (s : option string) : bool :=
  match s with
  | Some s => negb (String.eqb s "")
  | None => false
  end.

(** [s || null]. *)
Definition or_null (s : option string) : option string :=
  if truthy s then s else None.

Definition toString (z : Z) : string := pretty z.

Definition is_space (c : ascii) : bool :=
  let n := nat_of_ascii c in
  (Nat.eqb n 32 || (Nat.leb 9 n && Nat.leb n 13))%bool.

Definition digit_value (radix : Z) (c : ascii) : option Z :=
  let n := Z.of_nat (nat_of_ascii c) in
  let v := if (48 <=? n) && (n <=? 57) then Some (n - 48)
           else if (97 <=? n) && (n <=? 122) then Some (n - 87)
           else if (65 <=? n) && (n <=? 90) then Some (n - 55)
           else None in
  match v with
  | Some d => if d <? radix then Some d else None
  | None => None
  end.

Fixpoint skip_spaces (s : string) : string :=
  match s with
  | String c s' => if is_space c then skip_spaces s' else s
  | EmptyString => s
  end.

Fixpoint parse_digits (radix : Z) (acc : option Z) (s : string) : option Z :=
  match s with
  | String c s' =>
      match digit_value radix c with
      | Some d => parse_digits radix (Some (radix * default 0 acc + d)) s'
      | None => acc
      end
  | EmptyString => acc
  end.

Definition parse_unsigned (s : string) : option Z :=
  match s with
  | String "0" (String "x" s') => parse_digits 16 None s'
  | String "0" (String "X" s') => parse_digits 16 None s'
  | _ => parse_digits 10 None s
  end.

(** [parseInt(s)] with [NaN] as [None]; [parseInt(undefined)] is [NaN]. *)
Definition parseInt (s : option string) : option Z :=
  match s with
  | None => None
  | Some s =>
      match skip_spaces s with
      | String "-" s' => Z.opp <$> parse_unsigned s'
      | String "+" s' => parse_unsigned s'
      | s' => parse_unsigned s'
      end
  end.

(** [n || d] on a number-or-NaN. *)
Definition number_or (n : option Z) (d : Z) : Z :=
  match n with
  | Some 0 | None => d
  | Some n => n
  end.


(** ** Timestamps as text

    SQLite compares two timestamps as the texts they are.  Both forms start
    with the date ['YYYY-MM-DD'], which orders as the days do (years 0000 to
    9999, UTC); after the date an ISO text has ['T'] where the text of
    SQLite has a blank, and ['T'] is the greater character.  Two texts of
    the same form order as their instants. *)

Definition text_ltb (a b : Timestamp) : bool :=
  match a, b with
  | Instant x, Instant y => x <? y
  | SqliteText x, SqliteText y => x <? y
  | Instant x, SqliteText y => x / 86400000 <? y / 86400
  | SqliteText x, Instant y => x / 86400 <=? y / 86400000
  end.

(** [datetime('now')] and [CURRENT_TIMESTAMP] in SQLite. *)
Definition datetime_now (now : Z) : Timestamp := SqliteText (now / 1000).

(** ** SQL statements over [qr_codes]

    The same statements are sent to SQLite (with [?] place holders,
    [is_active = 1], [datetime('now')]) and to PostgreSQL (with [$n],
    [is_active = true], [NOW()]); [id] is the primary key of the table. *)

Inductive Dialect : Type := SQLite | PostgreSQL.

(** [CURRENT_TIMESTAMP], the default of [created_at]. *)
Definition current_timestamp (d : Dialect) (now : Z) : Timestamp :=
  match d with
  | SQLite => datetime_now now
  | PostgreSQL => Instant now
  end.

(** [is_active = 1]. *)
Definition active (r : QRRecord) : bool :=
  match is_active r with
  | Some b => b
  | None => false
  end.

(** [expires_at IS NULL OR expires_at > NOW()] in PostgreSQL; in JavaScript,
    [!qrRecord.expires_at || new Date(qrRecord.expires_at) > now]. *)
Definition unexpired (now : Z) (r : QRRecord) : bool :=
  match expires_at r with
  | Some e => now <? e
  | None => true
  end.

(** [expires_at < NOW()] in PostgreSQL; in JavaScript,
    [qrRecord.expires_at && new Date(qrRecord.expires_at) < now]. *)
Definition expired (now : Z) (r : QRRecord) : bool :=
  match expires_at r with
  | Some e => e <? now
  | None => false
  end.

(** [expires_at IS NULL OR expires_at > datetime('now')] in SQLite: the ISO
    text of the column against the text of [datetime('now')]. *)
Definition sqlite_unexpired (now : Z) (r : QRRecord) : bool :=
  match expires_at r with
  | Some e => text_ltb (datetime_now now) (Instant e)
  | None => true
  end.

(** [expires_at < datetime('now')] in SQLite. *)
Definition sqlite_expired (now : Z) (r : QRRecord) : bool :=
  match expires_at r with
  | Some e => text_ltb (Instant e) (datetime_now now)
  | None => false
  end.

Definition unexpired_in (d : Dialect) : Z → QRRecord → bool :=
  match d with
  | SQLite => sqlite_unexpired
  | PostgreSQL => unexpired
  end.

Definition expired_in (d : Dialect) : Z → QRRecord → bool :=
  match d with
  | SQLite => sqlite_expired
  | PostgreSQL => expired
  end.

(** [user_id = ?] with a non-null parameter. *)
Definition user_id_is (userId : option string) (r : QRRecord) : bool :=
  match userId, user_id r with
  | Some u, Some v => String.eqb u v
  | _, _ => false
  end.

Definition with_is_active (b : bool) (r : QRRecord) : QRRecord :=
  mkQRRecord (rec_id r) (rec_data r) (qr_image_url r) (created_at r)
    (expires_at r) (access_count r) (user_id r) (metadata r) (Some b).

Definition with_access_count (n : Z) (r : QRRecord) : QRRecord :=
  mkQRRecord (rec_id r) (rec_data r) (qr_image_url r) (created_at r)
    (expires_at r) n (user_id r) (metadata r) (is_active r).

(** [INSERT INTO qr_codes (id, data, qr_image_url, expires_at, user_id,
    metadata) VALUES (...)]: the other columns take their defaults,
    [created_at] the [CURRENT_TIMESTAMP] of the engine; a second row with
    the same primary key is refused. *)
Definition insert_qr_code (d : Dialect) (id data url : string) (expiresAt : Z)
    (userId : option string) (meta : string) (now : Z)
    (t : gmap string QRRecord) : option (QRRecord * gmap string QRRecord) :=
  let row := mkQRRecord id data url (current_timestamp d now) (Some expiresAt)
               0 userId (Some meta) (Some true) in
  match t !! id with
  | Some _ => None
  | None => Some (row, <[id := row]> t)
  end.

(** [SELECT * FROM qr_codes WHERE id = ? AND is_active = 1 AND
    (expires_at IS NULL OR expires_at > datetime('now'))], and with [NOW()]
    in PostgreSQL. *)
Definition select_visible (d : Dialect) (id : string) (now : Z)
    (t : gmap string QRRecord) : list QRRecord :=
  match t !! id with
  | Some r => if active r && unexpired_in d now r then [r] else []
  | None => []
  end.

(** [UPDATE qr_codes SET is_active = 0 WHERE id = ?]; the second component
    is the number of rows the statement matched. *)
Definition update_retire (id : string)
    (t : gmap string QRRecord) : gmap string QRRecord * Z :=
  match t !! id with
  | Some r => (<[id := with_is_active false r]> t, 1)
  | None => (t, 0)
  end.

(** [UPDATE qr_codes SET is_active = 0 WHERE id = ? AND user_id = ?]. *)
Definition update_retire_owned (id : string) (userId : option string)
    (t : gmap string QRRecord) : gmap string QRRecord * Z :=
  match t !! id with
  | Some r =>
      if user_id_is userId r then (<[id := with_is_active false r]> t, 1)
      else (t, 0)
  | None => (t, 0)
  end.

(** [UPDATE qr_codes SET access_count = access_count + 1 WHERE id = ?]. *)
Definition update_access_count (id : string)
    (t : gmap string QRRecord) : gmap string QRRecord * Z :=
  match t !! id with
  | Some r => (<[id := with_access_count (access_count r + 1) r]> t, 1)
  | None => (t, 0)
  end.

(** [DELETE FROM qr_codes WHERE expires_at < datetime('now')], and with
    [NOW()] in PostgreSQL. *)
Definition delete_expired (d : Dialect) (now : Z)
    (t : gmap string QRRecord) : option (Z * gmap string QRRecord) :=
  Some (Z.of_nat (size (filter (λ kv, expired_in d now kv.2) t)),
        filter (λ kv, negb (expired_in d now kv.2)) t).

(** The row of the statistics query:
    [COUNT( * )], [COUNT(CASE WHEN expires_at > datetime('now') OR expires_at
    IS NULL THEN 1 END)] (with [NOW()] in PostgreSQL), [SUM(access_count)]
    (NULL over no rows). *)
Record StatsRow : Type := mkStatsRow {
  row_total_codes : Z;
  row_active_codes : Z;
  row_total_accesses : option Z
}.

Definition sum_access_count (t : gmap string QRRecord) : Z :=
  map_fold (λ _ r acc, acc + access_count r) 0 t.

(** [WHERE user_id = ? AND is_active = 1], or [WHERE is_active = 1] when
    [userId] is falsy. *)
Definition stats_where (userId : option string) (r : QRRecord) : bool :=
  if truthy userId then user_id_is userId r && active r else active r.

Definition select_stats (d : Dialect) (userId : option string) (now : Z)
    (t : gmap string QRRecord) : StatsRow :=
  let rows := filter (λ kv, stats_where userId kv.2) t in
  mkStatsRow
    (Z.of_nat (size rows))
    (Z.of_nat (size (filter (λ kv, unexpired_in d now kv.2) rows)))
    (if decide (rows = ∅) then None else Some (sum_access_count rows)).

(** ** [sqlite.js] *)

(** [query(sql, params)]: rejects when [db] is not initialised or the
    statement fails. *)
Definition sqliteQuery {A}
    (stmt : Z → Sqlite → option (A * Sqlite)) : Js A := λ w,
  match db w with
  | None => (Throw "Database not initialized", w)
  | Some s =>
      if sqlite_ok s then
        match stmt (clock w) s with
        | Some (a, s') => (Normal a, set_db (Some s') w)
        | None => (Throw "SQLITE_CONSTRAINT", w)
        end
      else (Throw "SQLITE_ERROR", w)
  end.

Definition on_qr_codes {A}
    (stmt : Z → gmap string QRRecord → option (A * gmap string QRRecord))
    (now : Z) (s : Sqlite) : option (A * Sqlite) :=
  match stmt now (sqlite_qr_codes s) with
  | Some (a, t) => Some (a, mkSqlite (sqlite_ok s) t (qr_scan_logs s))
  | None => None
  end.

(** A [SELECT] leaves the table as it is; an [UPDATE] or [DELETE] always
    succeeds on a table that can be reached. *)
Definition selecting {A T} (f : Z → T → A) (now : Z) (t : T) : option (A * T) :=
  Some (f now t, t).

Definition updating {A T} (f : T → T * A) (now : Z) (t : T) : option (A * T) :=
  Some ((f t).2, (f t).1).

(** The argument of [logScan]. *)
Record ScannerInfo : Type := mkScannerInfo {
  ip : option string;
  userAgent : option string;
  location : option string;
  info_metadata : option string
}.

(** [INSERT INTO qr_scan_logs (qr_id, scanner_ip, scanner_user_agent,
    scanner_location, metadata) VALUES (?, ?, ?, ?, ?)]; [scanned_at] takes
    its default, [CURRENT_TIMESTAMP]. *)
Definition insert_scan_log (qrId : string)
    (scannerIp scannerUserAgent scannerLocation : option string)
    (meta : string) (now : Z) (s : Sqlite) : option (unit * Sqlite) :=
  Some (tt, mkSqlite (sqlite_ok s) (sqlite_qr_codes s)
              (qr_scan_logs s ++
               [mkScanLog qrId (datetime_now now) scannerIp scannerUserAgent
                  scannerLocation meta])).

Definition logScan (qrId : string) (scannerInfo : ScannerInfo) : Js bool :=
  try_catch
    (exec sqliteQuery (insert_scan_log qrId
            (or_null (ip scannerInfo))
            (or_null (userAgent scannerInfo))
            (or_null (location scannerInfo))
            (default "{}" (info_metadata scannerInfo)));
     ret true)
    (λ _, ret false).

(** The join of [getScanStats]:
    [FROM qr_scan_logs s JOIN qr_codes q ON s.qr_id = q.id
     WHERE q.is_active = 1 [AND s.qr_id = ?] [AND q.user_id = ?]]. *)
Definition scan_join (qrId userId : option string) (s : Sqlite) : list ScanLog :=
  List.filter
    (λ l, match sqlite_qr_codes s !! qr_id l with
          | Some q =>
              active q
              && (if truthy qrId then bool_decide (Some (qr_id l) = qrId) else true)
              && (if truthy userId then user_id_is userId q else true)
          | None => false
          end)
    (qr_scan_logs s).

(** [COUNT(DISTINCT s.qr_id)], [COUNT(s.id)], [COUNT(DISTINCT s.scanner_ip)]. *)
Definition select_scan_stats (qrId userId : option string) (now : Z)
    (s : Sqlite) : option (list ScanStats * Sqlite) :=
  let joined := scan_join qrId userId s in
  Some ([mkScanStats
           (Z.of_nat (length (remove_dups (qr_id <$> joined))))
           (Z.of_nat (length joined))
           (Z.of_nat (length (remove_dups (omap scanner_ip joined))))], s).

Definition no_scans : ScanStats := mkScanStats 0 0 0.

Definition getScanStats (qrId userId : option string) : Js ScanStats :=
  try_catch
    (do result <- sqliteQuery (select_scan_stats qrId userId);
     ret (default no_scans (head result)))
    (λ _, ret no_scans).

(** ** [database.js] *)

(** [query(text, params)]: throws when [pool] is not initialised, the
    connection cannot be had or the statement fails. *)
Definition query {A}
    (stmt : Z → gmap string QRRecord → option (A * gmap string QRRecord))
    : Js A := λ w,
  match pool w with
  | None => (Throw "Database not initialized", w)
  | Some p =>
      if pg_ok p then
        match stmt (clock w) (pg_qr_codes p) with
        | Some (a, t) => (Normal a, set_pool (Some (mkPostgres (pg_ok p) t)) w)
        | None => (Throw "duplicate key value violates unique constraint", w)
        end
      else (Throw "connection refused", w)
  end.

(** ** [redis.js] *)

(** [client.setEx(key, seconds, value)]: Redis refuses an expiry that is
    not positive. *)
Definition client_setEx (key : string) (seconds : Z) (value : QRRecord)
    : Js unit := λ w,
  match client w with
  | Some c =>
      if redis_ok c && (0 <? seconds) then
        (Normal tt,
         set_client (Some (mkRedis (isOpen c) (redis_ok c)
           (<[key := (value, clock w + seconds * 1000)]> (redis_keys c)))) w)
      else (Throw "ERR redis command failed", w)
  | None => (Throw "client is null", w)
  end.

Definition client_get (key : string) : Js (option QRRecord) := λ w,
  match client w with
  | Some c =>
      if redis_ok c then
        (Normal (match redis_keys c !! key with
                 | Some (v, deadline) =>
                     if clock w <? deadline then Some v else None
                 | None => None
                 end), w)
      else (Throw "ERR redis command failed", w)
  | None => (Throw "client is null", w)
  end.

Definition client_del (key : string) : Js unit := λ w,
  match client w with
  | Some c =>
      if redis_ok c then
        (Normal tt,
         set_client (Some (mkRedis (isOpen c) (redis_ok c)
           (delete key (redis_keys c)))) w)
      else (Throw "ERR redis command failed", w)
  | None => (Throw "client is null", w)
  end.

(** [!client || !client.isOpen]. *)
Definition client_unusable (w : World) : bool :=
  match client w with
  | Some c => negb (isOpen c)
  | None => true
  end.

Definition setCache (key : string) (value : QRRecord) (expireInSeconds : Z)
    : Js bool :=
  try_catch
    (do w <- get_world;
     if client_unusable w then ret false
     else exec client_setEx key expireInSeconds value; ret true)
    (λ _, ret false).

Definition getCache (key : string) : Js (option QRRecord) :=
  try_catch
    (do w <- get_world;
     if client_unusable w then ret None
     else do value <- client_get key; ret value)
    (λ _, ret None).

Definition deleteCache (key : string) : Js bool :=
  try_catch
    (do w <- get_world;
     if client_unusable w then ret false
     else exec client_del key; ret true)
    (λ _, ret false).

(** ** [qrService.js] *)

(** The properties of [options] the service itself reads; the rendering
    options only reach [QRCode.toBuffer]. *)
Record Options : Type := mkOptions {
  opt_userId : option string;
  opt_metadata : option string
}.

Definition public_view (qrRecord : QRRecord) : PublicQR :=
  mkPublicQR (rec_id qrRecord) (rec_data qrRecord) (qr_image_url qrRecord)
    (created_at qrRecord) (expires_at qrRecord) (access_count qrRecord).

Definition cacheKey (id : string) : string := "qr:" ++ id.

Definition is_production (w : World) : bool :=
  bool_decide (NODE_ENV (env w) = Some "production").

(** [generateQR(data, options)].  [uuid] is the value [uuidv4()] returns and
    [qrImageBase64] the rendering [QRCode.toBuffer] resolves to, [None] when
    it rejects. *)
Definition generateQR (uuid : string) (qrImageBase64 : option string)
    (data : string) (options : Options) : Js PublicQR :=
  try_catch
    (let id := uuid in
     do image <- match qrImageBase64 with
                 | Some b => ret b
                 | None => throw "QRCode.toBuffer failed"
                 end;
     let qrImageUrl := "data:image/png;base64," ++ image in
     do w <- get_world;
     let expiryHours :=
       number_or (parseInt (QR_CODE_EXPIRY_HOURS (env w))) 24 in
     let expiresAt := clock w + expiryHours * 60 * 60 * 1000 in
     let qrRecord0 :=
       mkQRRecord id data qrImageUrl (Instant (clock w)) (Some expiresAt) 0
         None None None in
     let userId := or_null (opt_userId options) in
     let meta := default "{}" (opt_metadata options) in
     do qrRecord <-
       try_catch
         (exec sqliteQuery (on_qr_codes
                 (insert_qr_code SQLite id data qrImageUrl expiresAt userId
                    meta));
          ret (mkQRRecord id data qrImageUrl (Instant (clock w))
                 (Some expiresAt) 0 userId (Some meta) (Some true)))
         (λ sqliteError,
            try_catch
              (do row <- query
                 (insert_qr_code PostgreSQL id data qrImageUrl expiresAt
                    userId meta);
               ret row)
              (λ pgError,
                 exec modify (λ w', set_memoryStore
                                 (<[id := qrRecord0]> (memoryStore w')) w');
                 if is_production w then throw "Database storage failed"
                 else ret qrRecord0));
     exec try_catch
            (exec setCache (cacheKey id) qrRecord (expiryHours * 3600); ret tt)
            (λ cacheError, ret tt);
     ret (public_view qrRecord))
    (λ error, throw "Failed to generate QR code").

Definition incrementAccessCount (id : string) : Js unit :=
  try_catch
    (try_catch
       (exec sqliteQuery (on_qr_codes (updating (update_access_count id)));
        ret tt)
       (λ sqliteError,
          try_catch
            (exec query (updating (update_access_count id)); ret tt)
            (λ pgError,
               do w <- get_world;
               match memoryStore w !! id with
               | Some qrRecord =>
                   modify (set_memoryStore
                     (<[id := with_access_count
                                (number_or (Some (access_count qrRecord)) 0 + 1)
                                qrRecord]> (memoryStore w)))
               | None => ret tt
               end)))
    (λ error, ret tt).

(** The lookup of [getQR] after a cache miss: SQLite, PostgreSQL inside the
    [catch] of the SQLite attempt, then [memoryStore] while nothing has been
    found. *)
Definition lookup_tiers (id : string) : Js (option QRRecord) :=
  do found <-
    try_catch
      (do rows <- sqliteQuery
                     (on_qr_codes (selecting (select_visible SQLite id)));
       ret (head rows))
      (λ sqliteError,
         try_catch
           (do rows <- query (selecting (select_visible PostgreSQL id));
            ret (head rows))
           (λ pgError, ret None));
  match found with
  | Some qrRecord => ret (Some qrRecord)
  | None =>
      do w <- get_world;
      match memoryStore w !! id with
      | Some qrRecord =>
          if expired (clock w) qrRecord then
            exec modify (set_memoryStore (delete id (memoryStore w)));
            throw "QR code not found or expired"
          else ret (Some qrRecord)
      | None => ret None
      end
  end.

(** [Math.max(0, Math.floor((expires_at - now) / 1000))], or [3600]. *)
Definition cache_ttl (now : Z) (qrRecord : QRRecord) : Z :=
  match expires_at qrRecord with
  | Some e => Z.max 0 ((e - now) / 1000)
  | None => 3600
  end.

Definition getQR (id : string) (scannerInfo : ScannerInfo) : Js PublicQR :=
  try_catch
    (do cached <- try_catch (getCache (cacheKey id)) (λ cacheError, ret None);
     do qrRecord <-
       match cached with
       | Some qrRecord => ret qrRecord
       | None =>
           do found <- lookup_tiers id;
           match found with
           | None => throw "QR code not found or expired"
           | Some qrRecord =>
               do w <- get_world;
               exec try_catch
                      (exec setCache (cacheKey id) qrRecord
                              (cache_ttl (clock w) qrRecord);
                       ret tt)
                      (λ cacheError, ret tt);
               ret qrRecord
           end
       end;
     exec try_catch
            (exec logScan id
                    (mkScannerInfo (ip scannerInfo) (userAgent scannerInfo)
                       (location scannerInfo)
                       (Some (default "{}" (info_metadata scannerInfo))));
             ret tt)
            (λ scanError, ret tt);
     exec detached (incrementAccessCount id);
     ret (public_view qrRecord))
    (λ error, throw error).

(** The statement [deleteQR] sends: scoped to the owner when [userId] is
    truthy. *)
Definition deleteQuery (id : string) (userId : option string)
    : gmap string QRRecord → gmap string QRRecord * Z :=
  if truthy userId then update_retire_owned id userId else update_retire id.

Definition deleteQR (id : string) (userId : option string) : Js bool :=
  try_catch
    (do deleted <-
       try_catch
         (do rowCount <- sqliteQuery
                           (on_qr_codes (updating (deleteQuery id userId)));
          ret (0 <? rowCount))
         (λ sqliteError,
            try_catch
              (do rowCount <- query (updating (deleteQuery id userId));
               ret (0 <? rowCount))
              (λ pgError, ret false));
     do w <- get_world;
     do deleted <-
       match memoryStore w !! id with
       | Some _ =>
           exec modify (set_memoryStore (delete id (memoryStore w)));
           ret true
       | None => ret deleted
       end;
     if negb deleted then throw "QR code not found or access denied"
     else
       exec try_catch (exec deleteCache (cacheKey id); ret tt)
              (λ cacheError, ret tt);
       ret true)
    (λ error, throw error).

(** One turn of the loop of [cleanupExpired] over [memoryStore]. *)
Definition purge_step (now : Z) (id : string) (qrRecord : QRRecord)
    (acc : gmap string QRRecord * Z) : gmap string QRRecord * Z :=
  if expired now qrRecord then (delete id acc.1, acc.2 + 1) else acc.

Definition purge_memory (now : Z) (m : gmap string QRRecord)
    : gmap string QRRecord * Z :=
  map_fold (purge_step now) (m, 0) m.

Definition cleanupExpired : Js Z :=
  try_catch
    (do deletedCount <-
       try_catch
         (do rowCount <- sqliteQuery (on_qr_codes (delete_expired SQLite));
          ret (0 + number_or (Some rowCount) 0))
         (λ sqliteError,
            try_catch
              (do rowCount <- query (delete_expired PostgreSQL);
               ret (0 + number_or (Some rowCount) 0))
              (λ pgError, ret 0));
     do w <- get_world;
     let purged := purge_memory (clock w) (memoryStore w) in
     let memoryDeleted := purged.2 in
     exec modify (set_memoryStore purged.1);
     ret (if 0 <? memoryDeleted then deletedCount + memoryDeleted
          else deletedCount))
    (λ error, throw error).

Definition zero_stats : Stats := mkStats "0" "0" "0" "0" "0" "0".

(** One turn of the loop of [getStats] over [memoryStore]; the accumulator
    is [(totalCodes, activeCodes, totalAccesses)]. *)
Definition stats_step (now : Z) (userId : option string) (id : string)
    (qrRecord : QRRecord) (acc : Z * Z * Z) : Z * Z * Z :=
  if truthy userId && negb (bool_decide (user_id qrRecord = userId)) then acc
  else
    (acc.1.1 + 1,
     (if unexpired now qrRecord then acc.1.2 + 1 else acc.1.2),
     acc.2 + number_or (Some (access_count qrRecord)) 0).

Definition memory_stats (now : Z) (userId : option string)
    (m : gmap string QRRecord) : Stats :=
  let totals := map_fold (stats_step now userId) (0, 0, 0) m in
  mkStats (toString totals.1.1) (toString totals.1.2) (toString totals.2)
    "0" "0" "0".

Definition getStats (userId : option string) : Js Stats :=
  try_catch
    (try_catch
       (do rows <- sqliteQuery
                     (on_qr_codes
                        (selecting (λ now t, [select_stats SQLite userId now t])));
        match head rows with
        | None => throw "TypeError: Cannot read properties of undefined"
        | Some row =>
            do scanStats <- getScanStats None userId;
            ret (mkStats
                   (toString (number_or (Some (row_total_codes row)) 0))
                   (toString (number_or (Some (row_active_codes row)) 0))
                   (toString (number_or (row_total_accesses row) 0))
                   (toString (ss_total_scans scanStats))
                   (toString (ss_unique_scanners scanStats))
                   (toString (ss_scanned_codes scanStats)))
        end)
       (λ sqliteError,
          try_catch
            (do rows <- query
                          (selecting
                             (λ now t, [select_stats PostgreSQL userId now t]));
             match head rows with
             | None => throw "TypeError: Cannot read properties of undefined"
             | Some row =>
                 ret (mkStats
                        (toString (number_or (Some (row_total_codes row)) 0))
                        (toString (number_or (Some (row_active_codes row)) 0))
                        (toString (number_or (row_total_accesses row) 0))
                        "0" "0" "0")
             end)
            (λ pgError,
               do w <- get_world;
               ret (memory_stats (clock w) userId (memoryStore w)))))
    (λ error, ret zero_stats).

(** ** [qrRoutes.js]: [POST /generate] *)

Record GenerateBody : Type := mkGenerateBody {
  body_data : option string;
  body_userId : option string;
  body_expiryHours : option Z;
  body_metadata : option string
}.

Inductive Response : Type :=
| Created (qrCode : PublicQR)
| BadRequest
| ServerError (message : string).

(** [generateSchema.validate(req.body)] has no [error]. *)
Definition generateSchema_valid (body : GenerateBody) : bool :=
  match body_data body with
  | Some d => negb (String.eqb d "") && Nat.leb (String.length d) 2048
  | None => false
  end
  && match body_userId body with
     | Some u => negb (String.eqb u "") && Nat.leb (String.length u) 255
     | None => true
     end
  && match body_expiryHours body with
     | Some h => (1 <=? h) && (h <=? 8760)
     | None => true
     end.

Definition set_QR_CODE_EXPIRY_HOURS (value : string) (w : World) : World :=
  set_env (mkEnv (Some value) (NODE_ENV (env w))) w.

Definition post_generate (uuid : string) (qrImageBase64 : option string)
    (body : GenerateBody) : Js Response :=
  try_catch
    (if negb (generateSchema_valid body) then ret BadRequest
     else
       let qrOptions := mkOptions (body_userId body) (body_metadata body) in
       exec match body_expiryHours body with
            | Some expiryHours =>
                if expiryHours =? 0 then ret tt
                else modify (set_QR_CODE_EXPIRY_HOURS (toString expiryHours))
            | None => ret tt
            end;
       do qrCode <- generateQR uuid qrImageBase64
                      (default "" (body_data body)) qrOptions;
       ret (Created qrCode))
    (λ error, ret (ServerError error)).

(** ** [errorHandler.js] *)

(** The properties of a thrown value the handler reads. *)
Record JsError : Type := mkJsError {
  err_name : string;
  err_code : option string;
  err_message : string;
  err_stack : option string
}.

(** [s.includes(sub)]. *)
Fixpoint includes (sub s : string) : bool :=
  String.prefix sub s
  || match s with
     | String _ s' => includes sub s'
     | EmptyString => false
     end.

(** What a route sends: [res.status(status).json(body)]. *)
Inductive Body : Type :=
| QrCodeBody (data : PublicQR)
| StatsBody (totalCodes activeCodes totalAccesses : Z)
| DeletedBody
| BatchBody (results : list PublicQR) (errors : list string)
    (totalRequested totalGenerated : Z)
| HealthBody (health database redis : string)
| ReadyBody (checkedServices : Z)
| NotReadyBody (error : string)
| ErrorBody (error : string) (stack : option string).

Record Reply : Type := mkReply {
  status : Z;
  body : Body
}.

Definition errorHandler (err : JsError) : Js Reply := λ w,
  let outcome :=
    if String.eqb (err_name err) "ValidationError" then (400, err_message err)
    else if String.eqb (err_name err) "UnauthorizedError" then
      (401, "Unauthorized")
    else if bool_decide (err_code err = Some "ECONNREFUSED") then
      (503, "Service temporarily unavailable")
    else if bool_decide (err_code err = Some "23505") then
      (409, "Resource already exists")
    else if includes "not found" (err_message err) then
      (404, "Resource not found")
    else (500, "Internal server error") in
  let message :=
    if is_production w && (outcome.1 =? 500) then "Internal server error"
    else outcome.2 in
  (Normal (mkReply outcome.1
             (ErrorBody message
                (if bool_decide (NODE_ENV (env w) = Some "development")
                 then err_stack err else None))),
   w).

(** [error.stack] of an [Error] made with [message]: the first line is the
    name and the message, the call frames follow it. *)
Definition stack_of (message frames : string) : string :=
  "Error: " ++ message ++ frames.

(** [next(error)] with a value thrown by the service: a plain [Error].
    [frames] is the rest of its stack. *)
Definition next (frames : string) (message : string) : Js Reply :=
  errorHandler (mkJsError "Error" None message (Some (stack_of message frames))).

(** ** [qrRoutes.js]: the other routes

    The rate-limiting middleware in front of the handlers is left out.
    [is_uuid] stands for the check [Joi.string().uuid()] performs, and
    [frames] for the call frames in the stack of an error handed to
    [next]. *)

(** The whole of [POST /generate]: the handler and, for the error it hands
    to [next], the error handler. *)
Definition post_generate_reply (frames : string) (uuid : string)
    (qrImageBase64 : option string) (body : GenerateBody) : Js Reply :=
  do response <- post_generate uuid qrImageBase64 body;
  match response with
  | Created qrCode => ret (mkReply 201 (QrCodeBody qrCode))
  | BadRequest => ret (mkReply 400 (ErrorBody "Validation failed" None))
  | ServerError message => next frames message
  end.

(** [GET /stats/:userId?]. *)
Definition get_stats (frames : string) (userId : option string) : Js Reply :=
  try_catch
    (do stats <- getStats userId;
     ret (mkReply 200
            (StatsBody
               (number_or (parseInt (Some (total_codes stats))) 0)
               (number_or (parseInt (Some (active_codes stats))) 0)
               (number_or (parseInt (Some (total_accesses stats))) 0))))
    (next frames).

(** [GET /:id]. *)
Definition get_qr (frames : string) (is_uuid : string → bool) (id : string)
    (scannerInfo : ScannerInfo) : Js Reply :=
  try_catch
    (if negb (is_uuid id) then
       ret (mkReply 400 (ErrorBody "Invalid QR code ID format" None))
     else
       do qrCode <- getQR id scannerInfo;
       ret (mkReply 200 (QrCodeBody qrCode)))
    (λ error,
       if includes "not found" error then
         ret (mkReply 404 (ErrorBody "QR code not found or expired" None))
       else next frames error).

(** [a || b] on strings. *)
Definition or_else (a b : option string) : option string :=
  if truthy a then a else b.

(** [DELETE /:id]; [bodyUserId] is [req.body.userId], [queryUserId] is
    [req.query.userId]. *)
Definition delete_qr (frames : string) (is_uuid : string → bool) (id : string)
    (bodyUserId queryUserId : option string) : Js Reply :=
  try_catch
    (if negb (is_uuid id) then
       ret (mkReply 400 (ErrorBody "Invalid QR code ID format" None))
     else
       let userId := or_else bodyUserId queryUserId in
       exec deleteQR id userId;
       ret (mkReply 200 DeletedBody))
    (λ error,
       if includes "not found" error then
         ret (mkReply 404 (ErrorBody "QR code not found or access denied" None))
       else next frames error).

(** An element of [items] in [POST /batch]. *)
Record BatchItem : Type := mkBatchItem {
  item_data : option string;
  item_userId : option string;
  item_metadata : option string
}.

Definition batchItem_valid (item : BatchItem) : bool :=
  match item_data item with
  | Some d => negb (String.eqb d "") && Nat.leb (String.length d) 2048
  | None => false
  end
  && match item_userId item with
     | Some u => negb (String.eqb u "") && Nat.leb (String.length u) 255
     | None => true
     end.

(** [batchSchema.validate(req.body)] has no [error]: between 1 and 10
    valid items. *)
Definition batchSchema_valid (items : list BatchItem) : bool :=
  Nat.leb 1 (length items) && Nat.leb (length items) 10
  && forallb batchItem_valid items.

(** The callbacks of [items.map], run one after the other.  Each job is an
    item with the [uuidv4()] and the rendering drawn for it; the result is
    [(results.filter(Boolean), errors.filter(Boolean))]. *)
Fixpoint batch_jobs (jobs : list (string * option string * BatchItem))
    : Js (list PublicQR * list string) :=
  match jobs with
  | [] => ret ([], [])
  | (uuid, qrImageBase64, item) :: rest =>
      do outcome <-
        try_catch
          (do qrCode <- generateQR uuid qrImageBase64
                          (default "" (item_data item))
                          (mkOptions (item_userId item) (item_metadata item));
           ret (inl qrCode))
          (λ error, ret (inr error));
      do others <- batch_jobs rest;
      ret (match outcome with
           | inl qrCode => (qrCode :: others.1, others.2)
           | inr message =>
               (others.1,
                if truthy (Some message) then message :: others.2
                else others.2)
           end)
  end.

(** [POST /batch]. *)
Definition post_batch (frames : string)
    (jobs : list (string * option string * BatchItem)) : Js Reply :=
  try_catch
    (if negb (batchSchema_valid (snd <$> jobs)) then
       ret (mkReply 400 (ErrorBody "Validation failed" None))
     else
       do lists <- batch_jobs jobs;
       ret (mkReply 201
              (BatchBody lists.1 lists.2
                 (Z.of_nat (length jobs)) (Z.of_nat (length lists.1)))))
    (next frames).

(** ** [healthRoutes.js] *)

(** [getPool()], [pool.connect()] and [SELECT 1] on the connection; also
    [pool.query('SELECT 1')]. *)
Definition pool_select_1 : Js unit := λ w,
  match pool w with
  | None => (Throw "Database not initialized", w)
  | Some p =>
      if pg_ok p then (Normal tt, w) else (Throw "connection refused", w)
  end.

(** [getRedisClient()]: [null] unless the client is there and open. *)
Definition getRedisClient (w : World) : option Redis :=
  match client w with
  | Some c => if isOpen c then Some c else None
  | None => None
  end.

Definition client_ping : Js unit := λ w,
  match client w with
  | Some c =>
      if redis_ok c then (Normal tt, w)
      else (Throw "ERR redis command failed", w)
  | None => (Throw "client is null", w)
  end.

Definition dependency (healthy : bool) : string :=
  if healthy then "healthy" else "unhealthy".

(** [GET /health/detailed]. *)
Definition health_detailed : Js Reply :=
  do database <- try_catch (exec pool_select_1; ret true) (λ error, ret false);
  do redis <-
    try_catch
      (do w <- get_world;
       match getRedisClient w with
       | Some _ => exec client_ping; ret true
       | None => ret false
       end)
      (λ error, ret false);
  let health := if database && redis then "healthy" else "degraded" in
  let statusCode := if String.eqb health "healthy" then 200 else 503 in
  ret (mkReply statusCode
         (HealthBody health (dependency database) (dependency redis))).

(** [Promise.all(checks)]: rejects with the first rejection. *)
Fixpoint promise_all (checks : list (Js unit)) : Js unit :=
  match checks with
  | [] => ret tt
  | check :: rest => exec check; promise_all rest
  end.

(** [GET /health/ready]. *)
Definition health_ready : Js Reply :=
  try_catch
    (do w <- get_world;
     let checks :=
       (match pool w with
        | Some _ => [pool_select_1]
        | None => []
        end ++
        match getRedisClient w with
        | Some _ => [client_ping]
        | None => []
        end)%list in
     exec (if Nat.ltb 0 (length checks) then promise_all checks else ret tt);
     ret (mkReply 200 (ReadyBody (Z.of_nat (length checks)))))
    (λ error, ret (mkReply 503 (NotReadyBody error))).

(** ** Vocabulary of the statements *)

(** *** Tiers *)

(** The tier answers: a statement sent to it does not fail for lack of a
    connection. *)
Definition sqlite_reachable (w : World) : bool :=
  match db w with
  | Some s => sqlite_ok s
  | None => false
  end.

Definition pg_reachable (w : World) : bool :=
  match pool w with
  | Some p => pg_ok p
  | None => false
  end.

Definition sqlite_table (w : World) : gmap string QRRecord :=
  match db w with
  | Some s => sqlite_qr_codes s
  | None => ∅
  end.

Definition pg_table (w : World) : gmap string QRRecord :=
  match pool w with
  | Some p => pg_qr_codes p
  | None => ∅
  end.

Definition set_clock (now : Z) (w : World) : World :=
  mkWorld (env w) now (db w) (pool w) (client w) (memoryStore w).

(** *** Retrieve *)

Definition NotFound : string := "QR code not found or expired".

(** What [getCache] finds under the key of [id]. *)
Definition cached (id : string) (w : World) : option QRRecord :=
  match client w with
  | Some c =>
      if isOpen c && redis_ok c then
        match redis_keys c !! cacheKey id with
        | Some (v, deadline) => if clock w <? deadline then Some v else None
        | None => None
        end
      else None
  | None => None
  end.

(** The visibility rule of the data model: [isActive] and ([expiresAt]
    unset or later than [now]). *)
Definition visible (now : Z) (r : QRRecord) : Prop :=
  is_active r = Some true ∧
  (expires_at r = None ∨ ∃ e, expires_at r = Some e ∧ now < e).

(** [findVisible] on a durable tier, as its [SELECT] performs it: the row
    stored under the id, if it is active and the engine does not find it
    expired. *)
Definition find_visible (d : Dialect) (now : Z) (row : option QRRecord)
    : option QRRecord :=
  match row with
  | Some r => if active r && unexpired_in d now r then Some r else None
  | None => None
  end.

(** [findVisible] on the memory tier, as [getQR] performs it: the entry
    stored under the id unless its expiry is earlier than [now]. *)
Definition memory_find (now : Z) (entry : option QRRecord) : option QRRecord :=
  match entry with
  | Some r => if expired now r then None else Some r
  | None => None
  end.

(** The durable part of the walk of Retrieve, as the code performs it: the
    secondary tier is consulted only when the primary one is unreachable. *)
Definition durable_lookup (id : string) (w : World) : option QRRecord :=
  if sqlite_reachable w then
    find_visible SQLite (clock w) (sqlite_table w !! id)
  else if pg_reachable w then
    find_visible PostgreSQL (clock w) (pg_table w !! id)
  else None.

(** The whole walk: the memory tier is consulted whenever no durable tier
    produced a record. *)
Definition Retrieve_walk (id : string) (w : World) : option QRRecord :=
  match durable_lookup id w with
  | Some r => Some r
  | None => memory_find (clock w) (memoryStore w !! id)
  end.

(** *** Generate *)

(** The [INSERT] of [generateQR] fails on the tier: it is unreachable or
    already holds a row with that primary key. *)
Definition sqlite_insert_refused (id : string) (w : World) : bool :=
  negb (sqlite_reachable w) || bool_decide (is_Some (sqlite_table w !! id)).

Definition pg_insert_refused (id : string) (w : World) : bool :=
  negb (pg_reachable w) || bool_decide (is_Some (pg_table w !! id)).

(** The time to live [generateQR] reads from the environment. *)
Definition expiry_hours (w : World) : Z :=
  number_or (parseInt (QR_CODE_EXPIRY_HOURS (env w))) 24.

(** The object [generateQR] puts into [memoryStore] in degraded mode. *)
Definition memory_record (uuid image data : string) (w : World) : QRRecord :=
  mkQRRecord uuid data ("data:image/png;base64," ++ image) (Instant (clock w))
    (Some (clock w + expiry_hours w * 60 * 60 * 1000)) 0 None None None.

(** *** Delete *)

Definition AccessDenied : string := "QR code not found or access denied".

(** The retirement of Delete on the durable tier it reaches reports a row:
    the primary tier when it is reachable, the secondary tier only when the
    primary one is not. *)
Definition durable_retired (id : string) (userId : option string)
    (w : World) : bool :=
  if sqlite_reachable w then 0 <? (deleteQuery id userId (sqlite_table w)).2
  else if pg_reachable w then 0 <? (deleteQuery id userId (pg_table w)).2
  else false.

(** *** CleanupExpired *)

(** The rows a purge at [now] removes from a table, how many they are, and
    the rows it leaves; [exp] is the test of the purge: [expired] in
    PostgreSQL and in the memory store, [sqlite_expired] in SQLite. *)
Definition expired_rows (exp : Z → QRRecord → bool) (now : Z)
    (t : gmap string QRRecord) : gmap string QRRecord :=
  filter (λ kv, exp now kv.2) t.

Definition count_expired (exp : Z → QRRecord → bool) (now : Z)
    (t : gmap string QRRecord) : Z :=
  Z.of_nat (size (expired_rows exp now t)).

Definition unexpired_rows (exp : Z → QRRecord → bool) (now : Z)
    (t : gmap string QRRecord) : gmap string QRRecord :=
  filter (λ kv, negb (exp now kv.2)) t.

(** The durable count of CleanupExpired: of the primary tier when it is
    reachable, of the secondary tier only when the primary one is not. *)
Definition durable_purged (w : World) : Z :=
  if sqlite_reachable w then
    count_expired sqlite_expired (clock w) (sqlite_table w)
  else if pg_reachable w then count_expired expired (clock w) (pg_table w)
  else 0.

(** *** ComputeStats *)

(** The filter of the loop of [getStats] over [memoryStore]: the entry is
    counted unless [userId] is truthy and differs from its [user_id]. *)
Definition counted_for (userId : option string) (r : QRRecord) : bool :=
  negb (truthy userId && negb (bool_decide (user_id r = userId))).

Definition memory_total (userId : option string)
    (m : gmap string QRRecord) : Z :=
  Z.of_nat (size (filter (λ kv, counted_for userId kv.2) m)).

Definition memory_active (now : Z) (userId : option string)
    (m : gmap string QRRecord) : Z :=
  Z.of_nat
    (size (filter (λ kv, counted_for userId kv.2 && unexpired now kv.2) m)).

Definition memory_accesses (userId : option string)
    (m : gmap string QRRecord) : Z :=
  sum_access_count (filter (λ kv, counted_for userId kv.2) m).

(** *** Sample worlds and requests *)

Definition no_tiers (e : Env) (now : Z) : World :=
  mkWorld e now None None None ∅.

Definition sqlite_only (e : Env) (now : Z) : World :=
  mkWorld e now (Some (mkSqlite true ∅ [])) None None ∅.

(** SQLite answers and holds [primary]; PostgreSQL answers and holds
    [secondary]; no cache, nothing in memory. *)
Definition both_durable (now : Z) (primary secondary : gmap string QRRecord)
    : World :=
  mkWorld (mkEnv None None) now (Some (mkSqlite true primary []))
    (Some (mkPostgres true secondary)) None ∅.

Definition sample_row (id : string) (owner : option string)
    (expiresAt : option Z) (activeFlag : bool) : QRRecord :=
  mkQRRecord id "https://x.test" "data:image/png;base64,AAAA" (Instant 0)
    expiresAt 0 owner (Some "{}") (Some activeFlag).

Definition anonymous : ScannerInfo := mkScannerInfo None None None None.

Definition plain_body (data : string) (expiryHours : option Z) : GenerateBody :=
  mkGenerateBody (Some data) None expiryHours None.

(** Redis refuses every command, the SQLite handle is missing and
    PostgreSQL holds the record. *)
Definition broken_side_channels : World :=
  mkWorld (mkEnv None None) 1000 None
    (Some (mkPostgres true
       {["id-1" := sample_row "id-1" None (Some 5000) true]}))
    (Some (mkRedis true false ∅)) ∅.

(** SQLite and Redis answer, [QR_CODE_EXPIRY_HOURS=1], and the world after
    a record has been generated in it at instant 0. *)
Definition service_up : World :=
  mkWorld (mkEnv (Some "1") None) 0 (Some (mkSqlite true ∅ [])) None
    (Some (mkRedis true true ∅)) ∅.

Definition after_generate : World :=
  (generateQR "id-A" (Some "AAAA") "https://x.test"
     (mkOptions (Some "alice") None) service_up).2.

(** *** Further vocabulary *)

(** The cache can be written and read: the client is open and answers. *)
Definition redis_usable (w : World) : bool :=
  match client w with
  | Some c => isOpen c && redis_ok c
  | None => false
  end.

Definition sqlite_logs (w : World) : list ScanLog :=
  match db w with
  | Some s => qr_scan_logs s
  | None => []
  end.

(** The row [logScan] writes for a call of [getQR]. *)
Definition scan_row (id : string) (info : ScannerInfo) (now : Z) : ScanLog :=
  mkScanLog id (datetime_now now) (or_null (ip info))
    (or_null (userAgent info))
    (or_null (location info)) (default "{}" (info_metadata info)).

(** One more access on a record. *)
Definition bump (r : QRRecord) : QRRecord :=
  with_access_count (access_count r + 1) r.

(** The row [generateQR] inserts into a durable tier. *)
Definition durable_record (d : Dialect) (uuid image data : string)
    (options : Options) (w : World) : QRRecord :=
  mkQRRecord uuid data ("data:image/png;base64," ++ image)
    (current_timestamp d (clock w))
    (Some (clock w + expiry_hours w * 60 * 60 * 1000)) 0
    (or_null (opt_userId options)) (Some (default "{}" (opt_metadata options)))
    (Some true).

(** A record with a given view. *)
Definition record_of_view (v : PublicQR) : QRRecord :=
  match v with
  | mkPublicQR i d u c e a => mkQRRecord i d u c e a None None None
  end.

(** *** The routes *)

(** The three numbers of ComputeStats, total, active and accesses, from the
    tier that answers: the primary tier, the secondary tier only when the
    primary one is unreachable, the memory store when neither answers. *)
Definition stats_numbers (userId : option string) (w : World) : Z * Z * Z :=
  let of_row (row : StatsRow) :=
    (row_total_codes row, row_active_codes row,
     number_or (row_total_accesses row) 0) in
  if sqlite_reachable w then
    of_row (select_stats SQLite userId (clock w) (sqlite_table w))
  else if pg_reachable w then
    of_row (select_stats PostgreSQL userId (clock w) (pg_table w))
  else
    (memory_total userId (memoryStore w),
     memory_active (clock w) userId (memoryStore w),
     memory_accesses userId (memoryStore w)).

(** The world in which the handler of [POST /generate] calls the service. *)
Definition with_override (expiryHours : option Z) (w : World) : World :=
  match expiryHours with
  | Some h => if h =? 0 then w else set_QR_CODE_EXPIRY_HOURS (toString h) w
  | None => w
  end.

(** Generate cannot store the record and says so. *)
Definition generate_fails (uuid : string) (qrImageBase64 : option string)
    (w : World) : bool :=
  match qrImageBase64 with
  | Some _ =>
      sqlite_insert_refused uuid w && pg_insert_refused uuid w
      && is_production w
  | None => true
  end.

(** *** The cache and the expiry of what it holds *)



(** The calls the service takes, and the passing of time. *)
Inductive Request : Type :=
| Generate (uuid : string) (qrImageBase64 : option string) (data : string)
    (options : Options)
| Retrieve (id : string) (scannerInfo : ScannerInfo)
| Delete (id : string) (userId : option string)
| CleanupExpired
| ComputeStats (userId : option string)
| Tick (now : Z).

Definition handle (w : World) (request : Request) : World :=
  match request with
  | Generate uuid qrImageBase64 data options =>
      (generateQR uuid qrImageBase64 data options w).2
  | Retrieve id scannerInfo => (getQR id scannerInfo w).2
  | Delete id userId => (deleteQR id userId w).2
  | CleanupExpired => (cleanupExpired w).2
  | ComputeStats userId => (getStats userId w).2
  | Tick now => set_clock now w
  end.

Definition run (requests : list Request) (w : World) : World :=
  foldl handle w requests.

(** * Theorems *)

Ltac break_world w :=
  let ok := fresh "ok" in
  let pok := fresh "pok" in
  destruct w as [? ? [[ok ? ?]|] [[pok ?]|] ? ?];
  try destruct ok; try destruct pok.

Ltac js_unfold :=
  unfold bind, try_catch, ret, throw, get_world, modify, detached in *.

(** ** The cache helpers and the scan log never throw *)

Lemma getCache_cached id w :
  getCache (cacheKey id) w = (Normal (cached id w), w).
Proof.
  unfold getCache, cached, client_unusable, client_get. js_unfold.
  destruct (client w) as [[[] [] ks]|] eqn:Hc; simpl;
    try rewrite Hc; simpl; done.
Qed.

Lemma setCache_frame key value ttl w :
  ∃ b c, setCache key value ttl w = (Normal b, set_client c w).
Proof.
  unfold setCache, client_unusable, client_setEx. js_unfold.
  destruct w as [e c d p [[[] [] ks]|] m]; simpl;
    try destruct (0 <? ttl); simpl; eauto;
    by eexists _, _; unfold set_client; simpl.
Qed.

Lemma deleteCache_frame key w :
  ∃ b c, deleteCache key w = (Normal b, set_client c w).
Proof.
  unfold deleteCache, client_unusable, client_del. js_unfold.
  destruct w as [e c d p [[[] [] ks]|] m]; simpl; eauto;
    by eexists _, _; unfold set_client; simpl.
Qed.

Lemma logScan_normal qrId info w :
  ∃ b w', logScan qrId info w = (Normal b, w').
Proof.
  unfold logScan, sqliteQuery. js_unfold.
  repeat case_match; simplify_eq; eauto.
Qed.

Lemma incrementAccessCount_normal id w :
  ∃ w', incrementAccessCount id w = (Normal tt, w').
Proof.
  unfold incrementAccessCount, sqliteQuery, query. js_unfold.
  repeat case_match; simplify_eq; eauto.
  all: match goal with u : unit |- _ => destruct u end; eauto.
Qed.

(** ** Retrieve *)

Lemma lookup_tiers_spec id w :
  lookup_tiers id w =
  match Retrieve_walk id w with
  | Some r => (Normal (Some r), w)
  | None =>
      match memoryStore w !! id with
      | Some _ =>
          (Throw NotFound, set_memoryStore (delete id (memoryStore w)) w)
      | None => (Normal None, w)
      end
  end.
Proof.
  unfold lookup_tiers, Retrieve_walk, durable_lookup, sqlite_reachable,
    pg_reachable,
    sqlite_table, pg_table, sqliteQuery, query, on_qr_codes, selecting,
    select_visible, find_visible, memory_find.
  js_unfold.
  break_world w; simpl.
  all: repeat (case_match; simpl in *; simplify_eq); done.
Qed.

Lemma getQR_completion id info w :
  (getQR id info w).1 =
  match cached id w with
  | Some r => Normal (public_view r)
  | None =>
      match Retrieve_walk id w with
      | Some r => Normal (public_view r)
      | None => Throw NotFound
      end
  end.
Proof.
  unfold getQR.
  unfold try_catch at 1. unfold bind at 1. unfold try_catch at 1.
  rewrite getCache_cached.
  destruct (cached id w) as [r|].
  - unfold bind at 1. unfold ret at 1.
    unfold bind at 1. unfold try_catch at 1. unfold bind at 1.
    match goal with
    | |- context [logScan ?a ?b ?c] =>
        destruct (logScan_normal a b c) as (b' & w1 & ->)
    end.
    unfold ret at 1. unfold bind, detached, ret. done.
  - unfold bind at 1. unfold bind at 1. rewrite lookup_tiers_spec.
    destruct (Retrieve_walk id w) as [r|].
    + unfold bind at 1. unfold get_world at 1. unfold bind at 1.
      unfold try_catch at 1. unfold bind at 1.
      destruct (setCache_frame (cacheKey id) r (cache_ttl (clock w) r) w)
        as (b & c & ->).
      unfold ret at 1. unfold ret at 1.
      unfold bind at 1. unfold try_catch at 1. unfold bind at 1.
      match goal with
      | |- context [logScan ?a ?b ?c] =>
          destruct (logScan_normal a b c) as (b' & w1 & ->)
      end.
      unfold ret at 1. unfold bind, detached, ret. done.
    + destruct (memoryStore w !! id) as [r|]; unfold throw; done.
Qed.

(** ** Generate *)

Lemma generateQR_spec uuid image data options w :
  (generateQR uuid (Some image) data options w).1 =
    (if sqlite_insert_refused uuid w && pg_insert_refused uuid w
        && is_production w
     then Throw "Failed to generate QR code"
     else Normal (public_view (memory_record uuid image data w)))
  ∧ memoryStore (generateQR uuid (Some image) data options w).2 =
    (if sqlite_insert_refused uuid w && pg_insert_refused uuid w
     then <[uuid := memory_record uuid image data w]> (memoryStore w)
     else memoryStore w)
  ∧ env (generateQR uuid (Some image) data options w).2 = env w.
Proof.
  unfold generateQR, sqlite_insert_refused, pg_insert_refused,
    sqlite_reachable, pg_reachable, sqlite_table, pg_table, is_production,
    memory_record, expiry_hours, public_view,
    sqliteQuery, query, on_qr_codes, insert_qr_code.
  js_unfold.
  break_world w; simpl.
  all: repeat match goal with
       | |- context [@lookup _ _ (gmap string QRRecord) _ ?k ?t] =>
           destruct (t !! k) eqn:?; simpl
       end.
  all: repeat match goal with
       | |- context [bool_decide ?P] => destruct (bool_decide P) eqn:?; simpl
       end.
  all: try match goal with
       | |- context [setCache ?k ?v ?t ?w] =>
           destruct (setCache_frame k v t w) as (? & ? & ->); simpl
       end.
  all: try done.
  all: try (exfalso; match goal with H : bool_decide _ = _ |- _ => revert H end;
       rewrite ?bool_decide_eq_false, ?bool_decide_eq_true; eauto using is_Some_None; fail).
Qed.

(** C7. When both durable inserts of Generate fail, the record is put into
    the memory store in every mode; in production mode the call then fails
    with the storage error, in any other mode it succeeds with the view of
    that record. *)
Theorem generateQR_degraded uuid image data options w :
  sqlite_insert_refused uuid w = true →
  pg_insert_refused uuid w = true →
  memoryStore (generateQR uuid (Some image) data options w).2 !! uuid
    = Some (memory_record uuid image data w) ∧
  (NODE_ENV (env w) = Some "production" →
   (generateQR uuid (Some image) data options w).1
     = Throw "Failed to generate QR code") ∧
  (NODE_ENV (env w) ≠ Some "production" →
   (generateQR uuid (Some image) data options w).1
     = Normal (public_view (memory_record uuid image data w))).
Proof.
  intros Hs Hp.
  destruct (generateQR_spec uuid image data options w) as (Hc & Hm & _).
  rewrite Hs, Hp in Hc, Hm. simpl in Hc, Hm.
  split; [by rewrite Hm, lookup_insert_eq|].
  unfold is_production in Hc. split; intros Hmode.
  - by rewrite Hc, bool_decide_eq_true_2.
  - by rewrite Hc, bool_decide_eq_false_2.
Qed.

Lemma generateQR_degraded_witness :
  (generateQR "id-1" (Some "AAAA") "https://x.test" (mkOptions None None)
     (no_tiers (mkEnv None (Some "production")) 1000)).1
    = Throw "Failed to generate QR code" ∧
  (generateQR "id-1" (Some "AAAA") "https://x.test" (mkOptions None None)
     (no_tiers (mkEnv None None) 1000)).1
    = Normal (mkPublicQR "id-1" "https://x.test" "data:image/png;base64,AAAA"
                (Instant 1000) (Some 86401000) 0).
Proof.
  split.
  - apply (generateQR_degraded "id-1" "AAAA" "https://x.test"
             (mkOptions None None)
             (no_tiers (mkEnv None (Some "production")) 1000));
      reflexivity.
  - apply (generateQR_degraded "id-1" "AAAA" "https://x.test"
             (mkOptions None None) (no_tiers (mkEnv None None) 1000));
      [reflexivity | reflexivity | discriminate].
Defined.

(** C9. [setCache], [logScan] and [incrementAccessCount] complete normally
    in every world and on every input.  Hence Retrieve returns the record
    it obtained, and Generate the record it stored, whatever happens to the
    cache, the scan log and the counter. *)
Theorem side_operations_never_throw key value ttl qrId info id w :
  (∃ b w', setCache key value ttl w = (Normal b, w')) ∧
  (∃ b w', logScan qrId info w = (Normal b, w')) ∧
  (∃ w', incrementAccessCount id w = (Normal tt, w')) ∧
  (∀ r, cached id w = Some r ∨ (cached id w = None ∧ Retrieve_walk id w = Some r) →
        (getQR id info w).1 = Normal (public_view r)) ∧
  (∀ uuid image data options,
     sqlite_insert_refused uuid w && pg_insert_refused uuid w
       && is_production w = false →
     (generateQR uuid (Some image) data options w).1
       = Normal (public_view (memory_record uuid image data w))).
Proof.
  split; [|split; [|split; [|split]]].
  - destruct (setCache_frame key value ttl w) as (b & c & ->). eauto.
  - apply logScan_normal.
  - apply incrementAccessCount_normal.
  - intros r [Hc | [Hc Hw]]; rewrite getQR_completion, Hc; [done|].
    by rewrite Hw.
  - intros uuid image data options Hok.
    destruct (generateQR_spec uuid image data options w) as (-> & _).
    by rewrite Hok.
Qed.

Lemma side_operations_never_throw_witness :
  setCache "qr:id-1" (sample_row "id-1" None (Some 5000) true) 4
    broken_side_channels
    = (Normal false, broken_side_channels) ∧
  logScan "id-1" anonymous broken_side_channels
    = (Normal false, broken_side_channels) ∧
  (getQR "id-1" anonymous broken_side_channels).1
    = Normal (public_view (sample_row "id-1" None (Some 5000) true)).
Proof.
  split; [reflexivity | split; [reflexivity|]].
  destruct (side_operations_never_throw "qr:id-1"
              (sample_row "id-1" None (Some 5000) true)
              4 "id-1" anonymous "id-1" broken_side_channels)
    as (_ & _ & _ & Hget & _).
  apply (Hget (sample_row "id-1" None (Some 5000) true)).
  right. split; reflexivity.
Defined.

(** ** The expiry override of [POST /generate] *)

Lemma parseInt_toString_range :
  forallb (λ h, bool_decide (parseInt (Some (toString h)) = Some h))
    (seqZ 1 8760) = true.
Proof. vm_compute. reflexivity. Qed.

Lemma parseInt_toString h :
  1 ≤ h ≤ 8760 → parseInt (Some (toString h)) = Some h.
Proof.
  intros Hh.
  pose proof parseInt_toString_range as Hall.
  rewrite forallb_forall in Hall.
  specialize (Hall h).
  rewrite bool_decide_eq_true in Hall. apply Hall.
  apply list_elem_of_In, elem_of_seqZ. lia.
Qed.

Lemma generateQR_env uuid image data options w :
  env (generateQR uuid image data options w).2 = env w.
Proof.
  destruct image as [image|].
  - apply generateQR_spec.
  - unfold generateQR. js_unfold. done.
Qed.

Lemma valid_expiryHours body h :
  generateSchema_valid body = true → body_expiryHours body = Some h →
  1 ≤ h ≤ 8760.
Proof.
  unfold generateSchema_valid. intros Hv Hh. rewrite Hh in Hv.
  apply andb_prop in Hv as [_ Hv]. apply andb_prop in Hv as [H1 H2].
  lia.
Qed.

(** A request without [expiryHours] takes its time to live from the
    environment as it is when the request arrives. *)
Lemma post_generate_default uuid image body w :
  generateSchema_valid body = true →
  body_expiryHours body = None →
  (post_generate uuid (Some image) body w).1 =
    if sqlite_insert_refused uuid w && pg_insert_refused uuid w
       && is_production w
    then Normal (ServerError "Failed to generate QR code")
    else Normal (Created (mkPublicQR uuid (default "" (body_data body))
                   ("data:image/png;base64," ++ image) (Instant (clock w))
                   (Some (clock w + expiry_hours w * 60 * 60 * 1000)) 0)).
Proof.
  intros Hv Hh. unfold post_generate. rewrite Hv, Hh. simpl.
  unfold try_catch at 1. unfold bind at 1. unfold ret at 1.
  unfold bind at 1.
  destruct (generateQR_spec uuid image (default "" (body_data body))
              (mkOptions (body_userId body) (body_metadata body)) w)
    as (Hc & _).
  destruct (generateQR _ _ _ _ w) as [c w'] eqn:Hg. simpl in Hc. subst c.
  by destruct (sqlite_insert_refused uuid w && pg_insert_refused uuid w
               && is_production w).
Qed.

(** C10. A valid request that carries [expiryHours = h] leaves
    [QR_CODE_EXPIRY_HOURS] set to [h], whatever the outcome of the request
    and whatever the variable held before; every later request without
    [expiryHours], made while the environment is as that request left it,
    gets [expiresAt = now + h] hours. *)
Theorem expiry_override_persists uuid1 image1 body1 h w :
  generateSchema_valid body1 = true →
  body_expiryHours body1 = Some h →
  QR_CODE_EXPIRY_HOURS (env (post_generate uuid1 image1 body1 w).2)
    = Some (toString h) ∧
  ∀ uuid2 image2 body2 w2,
    env w2 = env (post_generate uuid1 image1 body1 w).2 →
    generateSchema_valid body2 = true →
    body_expiryHours body2 = None →
    (post_generate uuid2 (Some image2) body2 w2).1 =
      if sqlite_insert_refused uuid2 w2 && pg_insert_refused uuid2 w2
         && is_production w2
      then Normal (ServerError "Failed to generate QR code")
      else Normal (Created (mkPublicQR uuid2 (default "" (body_data body2))
                     ("data:image/png;base64," ++ image2)
                     (Instant (clock w2))
                     (Some (clock w2 + h * 60 * 60 * 1000)) 0)).
Proof.
  intros Hv Hh.
  pose proof (valid_expiryHours body1 h Hv Hh) as Hrange.
  assert (QR_CODE_EXPIRY_HOURS (env (post_generate uuid1 image1 body1 w).2)
          = Some (toString h)) as Henv.
  { unfold post_generate. rewrite Hv, Hh. simpl.
    replace (h =? 0) with false by lia.
    unfold try_catch at 1. unfold bind at 1. unfold modify at 1.
    unfold bind at 1.
    pose proof (generateQR_env uuid1 image1 (default "" (body_data body1))
                  (mkOptions (body_userId body1) (body_metadata body1))
                  (set_QR_CODE_EXPIRY_HOURS (toString h) w)) as He.
    destruct (generateQR _ _ _ _ _) as [[qr|e] w'] eqn:Hg; simpl in *;
      unfold ret; simpl; by rewrite He. }
  split; [exact Henv|].
  intros uuid2 image2 body2 w2 He Hv2 Hh2.
  rewrite (post_generate_default _ _ _ _ Hv2 Hh2).
  unfold expiry_hours. rewrite He, Henv, parseInt_toString by done.
  replace (number_or (Some h) 24) with h; [done|].
  destruct h; simpl; try done; lia.
Qed.

Lemma expiry_override_persists_witness :
  generateSchema_valid (plain_body "https://x.test" (Some 1)) = true ∧
  expiry_hours (sqlite_only (mkEnv (Some "24") None) 0) = 24 ∧
  (post_generate "id-2" (Some "BBBB") (plain_body "https://y.test" None)
     (set_clock 5000
        (post_generate "id-1" (Some "AAAA")
           (plain_body "https://x.test" (Some 1))
           (sqlite_only (mkEnv (Some "24") None) 0)).2)).1
  = Normal (Created (mkPublicQR "id-2" "https://y.test"
              "data:image/png;base64,BBBB" (Instant 5000) (Some 3605000) 0)).
Proof.
  split; [reflexivity | split; [reflexivity|]].
  destruct (expiry_override_persists "id-1" (Some "AAAA")
              (plain_body "https://x.test" (Some 1)) 1
              (sqlite_only (mkEnv (Some "24") None) 0) eq_refl eq_refl)
    as [_ Hlater].
  rewrite (Hlater "id-2" "BBBB" (plain_body "https://y.test" None)
             (set_clock 5000
                (post_generate "id-1" (Some "AAAA")
                   (plain_body "https://x.test" (Some 1))
                   (sqlite_only (mkEnv (Some "24") None) 0)).2)
             eq_refl eq_refl eq_refl).
  reflexivity.
Defined.

(** ** Delete *)

Lemma deleteQR_spec id userId w :
  (deleteQR id userId w).1 =
    (if durable_retired id userId w
        || bool_decide (is_Some (memoryStore w !! id))
     then Normal true else Throw AccessDenied)
  ∧ memoryStore (deleteQR id userId w).2 = delete id (memoryStore w)
  ∧ sqlite_reachable (deleteQR id userId w).2 = sqlite_reachable w
  ∧ pg_reachable (deleteQR id userId w).2 = pg_reachable w
  ∧ sqlite_table (deleteQR id userId w).2 =
      (if sqlite_reachable w then (deleteQuery id userId (sqlite_table w)).1
       else sqlite_table w)
  ∧ pg_table (deleteQR id userId w).2 =
      (if sqlite_reachable w then pg_table w
       else if pg_reachable w then (deleteQuery id userId (pg_table w)).1
       else pg_table w).
Proof.
  unfold deleteQR, durable_retired, sqlite_reachable, pg_reachable,
    sqlite_table, pg_table, sqliteQuery, query, on_qr_codes, updating.
  js_unfold.
  break_world w; simpl.
  all: repeat match goal with
       | |- context [deleteQuery ?a ?b ?t] =>
           destruct (deleteQuery a b t) as [t' n] eqn:?; simpl
       end.
  all: repeat match goal with
       | |- context [0 <? ?n] => destruct (0 <? n) eqn:?; simpl
       end.
  all: repeat match goal with
       | |- context [@lookup _ _ (gmap string QRRecord) _ ?k ?t] =>
           destruct (t !! k) eqn:?; simpl
       end.
  all: try match goal with
       | |- context [deleteCache ?k ?w] =>
           destruct (deleteCache_frame k w) as (? & ? & ->); simpl
       end.
  all: rewrite ?delete_id by done.
  all: try done.
Qed.

Lemma deleteQuery_unmatched id userId t :
  (0 <? (deleteQuery id userId t).2) = false →
  (deleteQuery id userId t).1 = t.
Proof.
  unfold deleteQuery, update_retire, update_retire_owned.
  repeat case_match; simpl; done.
Qed.

Lemma deleteQuery_matches_again id userId t :
  (0 <? (deleteQuery id userId t).2) = true →
  (0 <? (deleteQuery id userId (deleteQuery id userId t).1).2) = true.
Proof.
  unfold deleteQuery, update_retire, update_retire_owned.
  destruct (truthy userId); destruct (t !! id) as [r|] eqn:Hr; simpl;
    try done.
  - destruct (user_id_is userId r) eqn:Hu; simpl; [|done].
    rewrite lookup_insert_eq.
    replace (user_id_is userId (with_is_active false r)) with true; done.
  - by rewrite lookup_insert_eq.
Qed.

(** On a durable tier an owner-scoped retirement leaves the row of another
    owner as it is. *)
Lemma deleteQuery_other_owner id userId t r :
  t !! id = Some r → truthy userId = true → user_id_is userId r = false →
  deleteQuery id userId t = (t, 0).
Proof.
  intros Hr Ht Hu. unfold deleteQuery, update_retire_owned.
  by rewrite Ht, Hr, Hu.
Qed.

(** The memory tier has no such scope: whoever asks, an entry stored under
    the id is removed and Delete returns true. *)
Lemma deleteQR_memory_any_owner id userId w :
  is_Some (memoryStore w !! id) →
  (deleteQR id userId w).1 = Normal true ∧
  memoryStore (deleteQR id userId w).2 !! id = None.
Proof.
  intros Hm. destruct (deleteQR_spec id userId w) as (Hc & Hmem & _).
  rewrite Hc, Hmem, lookup_delete_eq, bool_decide_eq_true_2 by done.
  by rewrite orb_true_r.
Qed.

Lemma durable_retired_again id userId w :
  durable_retired id userId w = true →
  durable_retired id userId (deleteQR id userId w).2 = true.
Proof.
  destruct (deleteQR_spec id userId w) as (_ & _ & Hs & Hp & Hst & Hpt).
  unfold durable_retired. rewrite Hs, Hp, Hst, Hpt.
  destruct (sqlite_reachable w); [apply deleteQuery_matches_again|].
  destruct (pg_reachable w); [apply deleteQuery_matches_again|done].
Qed.

Lemma durable_retired_still_not id userId w :
  durable_retired id userId w = false →
  durable_retired id userId (deleteQR id userId w).2 = false.
Proof.
  destruct (deleteQR_spec id userId w) as (_ & _ & Hs & Hp & Hst & Hpt).
  unfold durable_retired. rewrite Hs, Hp, Hst, Hpt.
  destruct (sqlite_reachable w).
  - intros H. by rewrite (deleteQuery_unmatched _ _ _ H).
  - destruct (pg_reachable w); [|done].
    intros H. by rewrite (deleteQuery_unmatched _ _ _ H).
Qed.

(** C3, as the code has it.  Delete sends the retirement to the primary
    tier, to the secondary tier only when the primary one is unreachable,
    and removes the entry of the memory tier on every call; it returns
    true when the durable tier it reached or the memory tier reports a
    record, and fails with the not-found error otherwise. *)
Theorem deleteQR_attempts id userId w :
  (deleteQR id userId w).1 =
    (if durable_retired id userId w
        || bool_decide (is_Some (memoryStore w !! id))
     then Normal true else Throw AccessDenied)
  ∧ sqlite_table (deleteQR id userId w).2 =
      (if sqlite_reachable w then (deleteQuery id userId (sqlite_table w)).1
       else sqlite_table w)
  ∧ pg_table (deleteQR id userId w).2 =
      (if sqlite_reachable w then pg_table w
       else if pg_reachable w then (deleteQuery id userId (pg_table w)).1
       else pg_table w)
  ∧ memoryStore (deleteQR id userId w).2 = delete id (memoryStore w).
Proof.
  destruct (deleteQR_spec id userId w) as (Hc & Hm & _ & _ & Hst & Hpt).
  done.
Qed.

(** The primary tier answers and holds no row, the secondary tier holds an
    active row the retirement would match: Delete fails and the row stays
    active. *)
Lemma deleteQR_skips_secondary :
  let w := both_durable 1000 ∅
             {["id-1" := sample_row "id-1" None (Some 5000) true]} in
  (deleteQuery "id-1" None (pg_table w)).2 = 1 ∧
  (deleteQR "id-1" None w).1 = Throw AccessDenied ∧
  pg_table (deleteQR "id-1" None w).2 !! "id-1"
    = Some (sample_row "id-1" None (Some 5000) true).
Proof. vm_compute. repeat split; reflexivity. Qed.

(** C4, as the code has it.  When only the memory tier holds the record,
    the first Delete returns true and the second fails with the not-found
    error; when the durable tier Delete reaches holds a matching row, the
    first Delete returns true and the second returns true again. *)
Theorem deleteQR_twice id userId w :
  (durable_retired id userId w = false →
   is_Some (memoryStore w !! id) →
   (deleteQR id userId w).1 = Normal true ∧
   (deleteQR id userId (deleteQR id userId w).2).1 = Throw AccessDenied) ∧
  (durable_retired id userId w = true →
   (deleteQR id userId w).1 = Normal true ∧
   (deleteQR id userId (deleteQR id userId w).2).1 = Normal true).
Proof.
  split.
  - intros Hd Hm.
    destruct (deleteQR_spec id userId w) as (Hc & Hmem & _).
    destruct (deleteQR_spec id userId (deleteQR id userId w).2) as (Hc2 & _).
    rewrite Hc, Hc2, Hmem, (durable_retired_still_not _ _ _ Hd), Hd.
    rewrite lookup_delete_eq, bool_decide_eq_true_2 by done.
    rewrite bool_decide_eq_false_2; [done|]. by intros [? ?].
  - intros Hd.
    destruct (deleteQR_spec id userId w) as (Hc & _).
    destruct (deleteQR_spec id userId (deleteQR id userId w).2) as (Hc2 & _).
    by rewrite Hc, Hc2, (durable_retired_again _ _ _ Hd), Hd.
Qed.

Lemma deleteQR_twice_witness :
  let m := mkWorld (mkEnv None None) 1000 None None None
             {["id-1" := memory_record "id-1" "AAAA" "https://x.test"
                           (no_tiers (mkEnv None None) 0)]} in
  let d := both_durable 1000
             {["id-1" := sample_row "id-1" None (Some 5000) true]} ∅ in
  ((deleteQR "id-1" None m).1 = Normal true ∧
   (deleteQR "id-1" None (deleteQR "id-1" None m).2).1 = Throw AccessDenied) ∧
  ((deleteQR "id-1" None d).1 = Normal true ∧
   (deleteQR "id-1" None (deleteQR "id-1" None d).2).1 = Normal true).
Proof.
  intros m d. split.
  - apply (deleteQR_twice "id-1" None m); [reflexivity|].
    vm_compute. eauto.
  - apply (deleteQR_twice "id-1" None d). reflexivity.
Defined.

(** A visible row of the primary tier: both calls of Delete return true. *)
Lemma deleteQR_twice_durable :
  let w := both_durable 1000
             {["id-1" := sample_row "id-1" None (Some 5000) true]} ∅ in
  head (select_visible SQLite "id-1" (clock w) (sqlite_table w))
    = Some (sample_row "id-1" None (Some 5000) true) ∧
  (deleteQR "id-1" None w).1 = Normal true ∧
  (deleteQR "id-1" None (deleteQR "id-1" None w).2).1 = Normal true.
Proof. vm_compute. repeat split; reflexivity. Qed.

(** C5 at the failing input.  A record generated for [alice] while both
    durable tiers were down sits in the memory store; Delete called for
    [bob] returns true and the entry is gone. *)
Theorem deleteQR_memory_ignores_owner :
  let w := (generateQR "id-1" (Some "AAAA") "https://x.test"
              (mkOptions (Some "alice") None)
              (no_tiers (mkEnv None None) 1000)).2 in
  memoryStore w !! "id-1"
    = Some (memory_record "id-1" "AAAA" "https://x.test"
              (no_tiers (mkEnv None None) 1000)) ∧
  (deleteQR "id-1" (Some "bob") w).1 = Normal true ∧
  memoryStore (deleteQR "id-1" (Some "bob") w).2 !! "id-1" = None.
Proof. vm_compute. repeat split; reflexivity. Qed.

(** ** CleanupExpired *)

Lemma expired_false_iff now r :
  expired now r = false ↔ ¬ (∃ e, expires_at r = Some e ∧ e < now).
Proof.
  unfold expired. destruct (expires_at r) as [e|].
  - rewrite Z.ltb_ge. split.
    + intros Hle (e' & [= <-] & Hlt). lia.
    + intros Hn. destruct (decide (e < now)); [|lia]. exfalso. eauto.
  - split; [|done]. intros _ (e & He & _). done.
Qed.

(** The day of [datetime('now')] is the day of the instant. *)
Lemma day_of_seconds now : now / 1000 / 86400 = now / 86400000.
Proof. rewrite Z.div_div by lia. reflexivity. Qed.

Lemma day_le_mono a b : a ≤ b → a / 86400000 ≤ b / 86400000.
Proof. intros Hab. apply Z.div_le_mono; lia. Qed.

(** What SQLite finds expired has expired: its day is an earlier one. *)
Lemma sqlite_expired_sound now r :
  sqlite_expired now r = true → ∃ e, expires_at r = Some e ∧ e < now.
Proof.
  unfold sqlite_expired, text_ltb, datetime_now.
  destruct (expires_at r) as [e|]; [|done].
  rewrite Z.ltb_lt, day_of_seconds. intros Hday.
  exists e. split; [done|].
  destruct (decide (e < now)); [done|]. exfalso.
  pose proof (day_le_mono now e ltac:(lia)). lia.
Qed.

Lemma unexpired_rows_lookup exp now t k r :
  unexpired_rows exp now t !! k = Some r ↔ t !! k = Some r ∧ exp now r = false.
Proof.
  unfold unexpired_rows. rewrite map_lookup_filter_Some. simpl.
  destruct (exp now r); simpl; split; intros [? ?]; first [done | by split].
Qed.

Lemma expired_rows_lookup exp now t k r :
  expired_rows exp now t !! k = Some r ↔ t !! k = Some r ∧ exp now r = true.
Proof.
  unfold expired_rows. rewrite map_lookup_filter_Some. simpl.
  destruct (exp now r); simpl; split; intros [? ?]; first [done | by split].
Qed.

Lemma size_expired_unexpired exp now t :
  size t
  = (size (expired_rows exp now t) + size (unexpired_rows exp now t))%nat.
Proof.
  unfold expired_rows, unexpired_rows.
  rewrite <-map_size_disj_union.
  - f_equal. symmetry.
    rewrite <-(map_filter_union_complement (λ kv, exp now kv.2) t) at 3.
    f_equal. apply map_filter_ext. intros k r _. simpl.
    destruct (exp now r); simpl; naive_solver.
  - apply map_disjoint_spec. intros k x y.
    rewrite !map_lookup_filter_Some. simpl. intros [H1 H2] [H3 H4].
    rewrite H1 in H3. injection H3 as <-. destruct (exp now x); done.
Qed.

(** The loop over [memoryStore] removes the expired entries and counts
    them. *)
Lemma purge_fold now (m s : gmap string QRRecord) c :
  map_fold (purge_step now) (s, c) m =
  (filter (λ kv, Is_true (match m !! kv.1 with
                          | Some r => negb (expired now r)
                          | None => true
                          end)) s,
   c + count_expired expired now m).
Proof.
  induction m as [|i x m Hi Hfirst IH] using map_first_key_ind.
  - rewrite map_fold_empty. f_equal.
    + symmetry. apply map_filter_id. intros k r _. by rewrite lookup_empty.
    + unfold count_expired, expired_rows.
      rewrite map_filter_empty, map_size_empty. lia.
  - rewrite map_fold_insert_first_key by done. rewrite IH.
    unfold purge_step at 1. simpl.
    unfold count_expired, expired_rows.
    destruct (expired now x) eqn:Hx; f_equal.
    + apply map_eq. intros k. apply option_eq. intros r.
      rewrite lookup_delete_Some, !map_lookup_filter_Some. simpl.
      destruct (decide (i = k)) as [->|Hne].
      * rewrite lookup_insert_eq, Hx. simpl. tauto.
      * rewrite lookup_insert_ne by done. tauto.
    + rewrite map_filter_insert_True by (simpl; by rewrite Hx).
      rewrite map_size_insert_None; [lia|].
      apply map_lookup_filter_None. left. done.
    + apply map_filter_ext. intros k r Hk. simpl.
      destruct (decide (i = k)) as [->|Hne].
      * rewrite lookup_insert_eq, Hi, Hx. reflexivity.
      * rewrite (lookup_insert_ne m i k x Hne). reflexivity.
    + rewrite map_filter_insert_False
        by (simpl; rewrite Hx; exact (λ H : False, H)).
      rewrite delete_id by done. done.
Qed.

Lemma purge_memory_spec now m :
  purge_memory now m
  = (unexpired_rows expired now m, count_expired expired now m).
Proof.
  unfold purge_memory. rewrite purge_fold. f_equal.
  apply map_filter_ext. intros k r Hk. simpl. by rewrite Hk.
Qed.

Lemma number_or_zero n : number_or (Some n) 0 = n.
Proof. by destruct n. Qed.

Lemma add_if_positive (a c : Z) :
  0 ≤ c → (if 0 <? c then a + c else a) = a + c.
Proof. intros Hc. destruct (0 <? c) eqn:H; lia. Qed.

Lemma count_expired_nonneg exp now t : 0 ≤ count_expired exp now t.
Proof. unfold count_expired. lia. Qed.

Lemma cleanupExpired_spec w :
  (cleanupExpired w).1 =
    Normal (durable_purged w + count_expired expired (clock w) (memoryStore w))
  ∧ sqlite_table (cleanupExpired w).2 =
      (if sqlite_reachable w then
         unexpired_rows sqlite_expired (clock w) (sqlite_table w)
       else sqlite_table w)
  ∧ pg_table (cleanupExpired w).2 =
      (if sqlite_reachable w then pg_table w
       else if pg_reachable w then
         unexpired_rows expired (clock w) (pg_table w)
       else pg_table w)
  ∧ memoryStore (cleanupExpired w).2
    = unexpired_rows expired (clock w) (memoryStore w).
Proof.
  unfold cleanupExpired, durable_purged, sqlite_reachable, pg_reachable,
    sqlite_table, pg_table, sqliteQuery, query, on_qr_codes, delete_expired.
  js_unfold.
  pose proof number_or_zero as Hn.
  remember number_or as n_or eqn:Hdef.
  break_world w; simpl.
  all: rewrite ?purge_memory_spec; simpl.
  all: rewrite ?Hn.
  all: rewrite add_if_positive by apply count_expired_nonneg.
  all: done.
Qed.

(** C6, as the code has it.  CleanupExpired purges the primary tier, the
    secondary tier only when the primary one is unreachable, and the memory
    tier on every call, and returns the sum of the counts of the purges it
    ran; the count of a purge is the number of records it removed, and a
    purge removes only records whose [expires_at] is earlier than now,
    whatever their [is_active].  The purges of the secondary tier and of the
    memory tier remove every such record.  Which of them the purge of the
    primary tier removes is not stated here. *)
Theorem cleanupExpired_purges w :
  (cleanupExpired w).1 =
    Normal (durable_purged w + count_expired expired (clock w) (memoryStore w))
  ∧ (if sqlite_reachable w then
       sqlite_table (cleanupExpired w).2 ⊆ sqlite_table w ∧
       durable_purged w
       = Z.of_nat (size (sqlite_table w))
         - Z.of_nat (size (sqlite_table (cleanupExpired w).2)) ∧
       (∀ k r, sqlite_table w !! k = Some r →
               sqlite_table (cleanupExpired w).2 !! k = None →
               ∃ e, expires_at r = Some e ∧ e < clock w)
     else sqlite_table (cleanupExpired w).2 = sqlite_table w)
  ∧ pg_table (cleanupExpired w).2 =
      (if sqlite_reachable w then pg_table w
       else if pg_reachable w then
         unexpired_rows expired (clock w) (pg_table w)
       else pg_table w)
  ∧ memoryStore (cleanupExpired w).2
    = unexpired_rows expired (clock w) (memoryStore w)
  ∧ (∀ now t k r,
       unexpired_rows expired now t !! k = Some r ↔
       t !! k = Some r ∧ ¬ (∃ e, expires_at r = Some e ∧ e < now))
  ∧ (∀ now t,
       Z.of_nat (size t)
       = count_expired expired now t
         + Z.of_nat (size (unexpired_rows expired now t))).
Proof.
  destruct (cleanupExpired_spec w) as (Hc & Hs & Hp & Hm).
  split; [done|]. split; [|split; [done|]; split; [done|]; split].
  - rewrite Hs. unfold durable_purged.
    destruct (sqlite_reachable w); [|done].
    split; [apply map_filter_subseteq|]. split.
    + unfold count_expired.
      rewrite (size_expired_unexpired sqlite_expired (clock w)
                 (sqlite_table w)).
      unfold expired_rows, unexpired_rows. lia.
    + intros k r Hk Hgone. apply sqlite_expired_sound.
      destruct (sqlite_expired (clock w) r) eqn:Hx; [done|].
      rewrite (proj2 (unexpired_rows_lookup _ _ _ _ _) (conj Hk Hx)) in Hgone.
      done.
  - intros now t k r. rewrite unexpired_rows_lookup.
    by rewrite expired_false_iff.
  - intros now t. unfold count_expired.
    rewrite (size_expired_unexpired expired now t). lia.
Qed.

(** The primary tier answers, the secondary tier holds a row that expired:
    CleanupExpired returns 0 and the row is still there. *)
Lemma cleanupExpired_skips_secondary :
  let w := both_durable 9000 ∅
             {["id-1" := sample_row "id-1" None (Some 5000) true]} in
  count_expired expired (clock w) (pg_table w) = 1 ∧
  (cleanupExpired w).1 = Normal 0 ∧
  pg_table (cleanupExpired w).2 !! "id-1"
    = Some (sample_row "id-1" None (Some 5000) true).
Proof. vm_compute. repeat split; reflexivity. Qed.

(** The primary tier is down: the secondary and the memory tier are purged,
    an expired row goes even though it is retired. *)
Lemma cleanupExpired_purges_witness :
  let w := mkWorld (mkEnv None None) 4000000 None
             (Some (mkPostgres true
                {["id-1" := sample_row "id-1" None (Some 5000) false;
                  "id-2" := sample_row "id-2" None (Some 4000500) true]}))
             None
             {["id-3" := memory_record "id-3" "AAAA" "https://x.test"
                           (no_tiers (mkEnv (Some "1") None) 0)]} in
  (cleanupExpired w).1 = Normal 2 ∧
  pg_table (cleanupExpired w).2
    = {["id-2" := sample_row "id-2" None (Some 4000500) true]} ∧
  memoryStore (cleanupExpired w).2 = ∅.
Proof.
  intros w.
  destruct (cleanupExpired_purges w) as (Hc & _ & Hp & Hm & _).
  rewrite Hc, Hp, Hm. vm_compute. repeat split; reflexivity.
Defined.

(** The purge of the primary tier on the day of the expiry: a row of SQLite
    that expired an hour ago is neither removed nor counted; it goes on the
    next day. *)
Lemma cleanupExpired_sqlite_same_day :
  let row := sample_row "id-1" None (Some 3600000) true in
  let w := both_durable 7200000 {["id-1" := row]} ∅ in
  expired (clock w) row = true ∧
  (cleanupExpired w).1 = Normal 0 ∧
  sqlite_table (cleanupExpired w).2 !! "id-1" = Some row ∧
  (cleanupExpired (set_clock 86400000 w)).1 = Normal 1.
Proof. vm_compute. repeat split; reflexivity. Qed.

(** ** ComputeStats *)

Lemma sum_access_count_insert i x (t : gmap string QRRecord) :
  t !! i = None →
  sum_access_count (<[i:=x]> t) = sum_access_count t + access_count x.
Proof.
  intros Hi. unfold sum_access_count.
  rewrite map_fold_insert_L; [done| |done].
  intros. lia.
Qed.

(** The loop over [memoryStore] counts the entries of the owner, those of
    them that have not expired, and sums their access counts. *)
Lemma stats_fold now userId (m : gmap string QRRecord) :
  map_fold (stats_step now userId) (0, 0, 0) m =
  (memory_total userId m, memory_active now userId m,
   memory_accesses userId m).
Proof.
  unfold memory_total, memory_active, memory_accesses.
  induction m as [|i x m Hi Hfirst IH] using map_first_key_ind.
  - rewrite map_fold_empty, !map_filter_empty, map_size_empty. done.
  - rewrite map_fold_insert_first_key by done. rewrite IH. clear IH.
    assert (∀ P `{!∀ kv, Decision (P kv)},
              filter P m !! i = None) as Hnone.
    { intros P ?. apply map_lookup_filter_None. by left. }
    unfold stats_step. rewrite number_or_zero. cbn [fst snd].
    pose proof (eq_refl : counted_for userId x
      = negb (truthy userId && negb (bool_decide (user_id x = userId))))
      as Hc.
    destruct (truthy userId && negb (bool_decide (user_id x = userId)));
      simpl in Hc.
    + rewrite (map_filter_insert_False
                 (λ kv, Is_true (counted_for userId kv.2)))
        by (simpl; rewrite Hc; exact (λ H : False, H)).
      rewrite (map_filter_insert_False
                 (λ kv, Is_true (counted_for userId kv.2 && unexpired now kv.2)))
        by (simpl; rewrite Hc; exact (λ H : False, H)).
      rewrite delete_id by done. done.
    + rewrite (map_filter_insert_True
                 (λ kv, Is_true (counted_for userId kv.2)))
        by (simpl; by rewrite Hc).
      rewrite map_size_insert_None by apply Hnone.
      rewrite sum_access_count_insert by apply Hnone.
      destruct (unexpired now x) eqn:Hu.
      * rewrite (map_filter_insert_True
                   (λ kv, Is_true (counted_for userId kv.2 && unexpired now kv.2)))
          by (simpl; by rewrite Hc, Hu).
        rewrite map_size_insert_None by apply Hnone.
        rewrite ?Nat2Z.inj_succ, <-?Z.add_1_r. reflexivity.
      * rewrite (map_filter_insert_False
                   (λ kv, Is_true (counted_for userId kv.2 && unexpired now kv.2)))
          by (simpl; rewrite Hc, Hu; exact (λ H : False, H)).
        rewrite delete_id by done.
        rewrite ?Nat2Z.inj_succ, <-?Z.add_1_r. reflexivity.
Qed.

Lemma getStats_normal userId w :
  ∃ stats w', getStats userId w = (Normal stats, w').
Proof.
  unfold getStats, getScanStats, sqliteQuery, query, on_qr_codes, selecting,
    select_scan_stats.
  js_unfold.
  break_world w; simpl; eauto.
Qed.

Lemma getStats_memory userId w :
  sqlite_reachable w = false → pg_reachable w = false →
  getStats userId w =
  (Normal (mkStats
             (toString (memory_total userId (memoryStore w)))
             (toString (memory_active (clock w) userId (memoryStore w)))
             (toString (memory_accesses userId (memoryStore w)))
             "0" "0" "0"), w).
Proof.
  unfold getStats, sqlite_reachable, pg_reachable, sqliteQuery, query,
    memory_stats.
  js_unfold.
  break_world w; simpl; try done; intros _ _; by rewrite stats_fold.
Qed.

(** C8.  ComputeStats completes normally in every world.  With both durable
    tiers unreachable its result is the scan of the memory store: the
    entries of the owner, those of them that have not expired, the sum of
    their access counts, and zero for the three scan fields; with an empty
    memory store every field is zero. *)
Theorem getStats_never_throws userId w :
  (∃ stats w', getStats userId w = (Normal stats, w')) ∧
  (sqlite_reachable w = false → pg_reachable w = false →
   (getStats userId w).1 =
     Normal (mkStats
               (toString (memory_total userId (memoryStore w)))
               (toString (memory_active (clock w) userId (memoryStore w)))
               (toString (memory_accesses userId (memoryStore w)))
               "0" "0" "0")) ∧
  (sqlite_reachable w = false → pg_reachable w = false →
   memoryStore w = ∅ →
   (getStats userId w).1 = Normal zero_stats).
Proof.
  split; [apply getStats_normal|]. split.
  - intros Hs Hp. by rewrite getStats_memory.
  - intros Hs Hp Hm. rewrite getStats_memory by done. rewrite Hm. done.
Qed.

Lemma getStats_never_throws_witness :
  let w := mkWorld (mkEnv None None) 4000000 None None None
             {["id-1" := memory_record "id-1" "AAAA" "https://x.test"
                           (no_tiers (mkEnv (Some "1") None) 0);
               "id-2" := with_access_count 5
                           (memory_record "id-2" "BBBB" "https://y.test"
                              (no_tiers (mkEnv None None) 0))]} in
  (getStats None w).1 = Normal (mkStats "2" "1" "5" "0" "0" "0") ∧
  (getStats None (no_tiers (mkEnv None None) 0)).1 = Normal zero_stats.
Proof.
  intros w. split.
  - destruct (getStats_never_throws None w) as (_ & Hmem & _).
    rewrite Hmem by reflexivity. vm_compute. reflexivity.
  - destruct (getStats_never_throws None (no_tiers (mkEnv None None) 0))
      as (_ & _ & Hzero).
    apply Hzero; reflexivity.
Defined.

(** ** Visibility *)

Lemma visible_iff now r :
  active r && unexpired now r = true ↔ visible now r.
Proof.
  unfold visible, active, unexpired. rewrite andb_true_iff.
  destruct (is_active r) as [[]|], (expires_at r) as [e|]; simpl.
  all: rewrite ?Z.ltb_lt.
  all: split; [intros [? ?] | intros [? [?|(e' & ? & ?)]]]; simplify_eq.
  all: try done; eauto.
Qed.

(** The lookup of the secondary tier follows the visibility rule. *)
Lemma find_visible_Some now row r :
  find_visible PostgreSQL now row = Some r ↔ row = Some r ∧ visible now r.
Proof.
  unfold find_visible, unexpired_in. destruct row as [r'|].
  - destruct (active r' && unexpired now r') eqn:Hv.
    + apply visible_iff in Hv. split.
      * intros [= ->]. done.
      * intros [[= ->] _]. done.
    + split; [done|]. intros [[= ->] Hvis%visible_iff]. congruence.
  - split; [done|]. intros [? _]. done.
Qed.

Lemma find_visible_None now r :
  find_visible PostgreSQL now (Some r) = None ↔ ¬ visible now r.
Proof.
  rewrite <-visible_iff. unfold find_visible, unexpired_in.
  destruct (active r && unexpired now r); split; try done.
Qed.

(** The lookup of the primary tier compares texts: a row counts as
    unexpired until the day of its expiry is over. *)
Lemma sqlite_unexpired_iff now r :
  sqlite_unexpired now r = true ↔
  expires_at r = None ∨
  ∃ e, expires_at r = Some e ∧ now / 86400000 ≤ e / 86400000.
Proof.
  unfold sqlite_unexpired, text_ltb, datetime_now.
  destruct (expires_at r) as [e|].
  - rewrite Z.leb_le, day_of_seconds. split.
    + intros Hday. right. by exists e.
    + intros [?|(e' & [= <-] & Hday)]; done.
  - split; [by left|done].
Qed.

Lemma sqlite_find_visible_Some now row r :
  find_visible SQLite now row = Some r ↔
  row = Some r ∧ is_active r = Some true ∧
  (expires_at r = None ∨
   ∃ e, expires_at r = Some e ∧ now / 86400000 ≤ e / 86400000).
Proof.
  unfold find_visible, unexpired_in. rewrite <-sqlite_unexpired_iff.
  destruct row as [r'|]; [|by split; [|intros [? _]]].
  unfold active.
  destruct (is_active r') as [[]|] eqn:Ha, (sqlite_unexpired now r') eqn:Hu;
    simpl; split; try done.
  all: try (intros [= ->]; by rewrite Ha, Hu).
  all: intros ([= <-] & Ha' & Hu'); congruence.
Qed.

(** At the very instant of its expiry a row is no longer visible on the
    secondary tier. *)
Lemma select_visible_at_expiry id now t r :
  t !! id = Some r → expires_at r = Some now →
  select_visible PostgreSQL id now t = [].
Proof.
  intros Ht He. unfold select_visible, unexpired_in, unexpired.
  rewrite Ht, He.
  rewrite Z.ltb_irrefl. by rewrite andb_false_r.
Qed.

(** C2, as the code has it.  On a cache miss Retrieve consults the primary
    tier, the secondary tier only when the primary one is unreachable, and
    the memory tier whenever no durable tier produced a record; it returns
    the first record found and fails with the not-found error otherwise. *)
Theorem getQR_walk id info w :
  cached id w = None →
  (getQR id info w).1 =
    match Retrieve_walk id w with
    | Some r => Normal (public_view r)
    | None => Throw NotFound
    end.
Proof. intros Hmiss. by rewrite getQR_completion, Hmiss. Qed.

Lemma getQR_walk_witness :
  let w := mkWorld (mkEnv None None) 1000 None
             (Some (mkPostgres true
                {["id-1" := sample_row "id-1" None (Some 5000) true]}))
             None ∅ in
  cached "id-1" w = None ∧
  (getQR "id-1" anonymous w).1
    = Normal (public_view (sample_row "id-1" None (Some 5000) true)).
Proof.
  intros w. split; [reflexivity|].
  rewrite (getQR_walk "id-1" anonymous w eq_refl). reflexivity.
Defined.

(** The primary tier answers and holds no row, the secondary tier holds a
    visible one: Retrieve fails with the not-found error. *)
Lemma getQR_skips_secondary :
  let w := both_durable 1000 ∅
             {["id-1" := sample_row "id-1" None (Some 5000) true]} in
  cached "id-1" w = None ∧
  find_visible PostgreSQL (clock w) (pg_table w !! "id-1")
    = Some (sample_row "id-1" None (Some 5000) true) ∧
  (getQR "id-1" anonymous w).1 = Throw NotFound.
Proof. vm_compute. repeat split; reflexivity. Qed.

(** What the lookups of Retrieve do, tier by tier, on a cache miss.  The
    secondary tier returns the stored row when it is visible and behaves as
    for an absent row when it is not.  The primary tier does so for a row
    that is retired, that has no expiry, or whose expiry falls on another
    day than now; on the day of the expiry it returns an active row
    whatever the hour.  The memory tier keeps no [is_active]: its lookup
    returns the stored record when [expires_at] is unset or later than now
    and fails as for an absent record when [expires_at] is earlier than
    now. *)
Lemma lookup_per_tier id info r w :
  cached id w = None →
  (sqlite_reachable w = true → sqlite_table w !! id = Some r →
   memoryStore w !! id = None →
   (is_active r = Some true →
    (expires_at r = None ∨
     ∃ e, expires_at r = Some e ∧ clock w / 86400000 ≤ e / 86400000) →
    (getQR id info w).1 = Normal (public_view r)) ∧
   (is_active r ≠ Some true ∨
    (∃ e, expires_at r = Some e ∧ e / 86400000 < clock w / 86400000) →
    (getQR id info w).1 = Throw NotFound)) ∧
  (sqlite_reachable w = false → pg_reachable w = true →
   pg_table w !! id = Some r → memoryStore w !! id = None →
   (visible (clock w) r → (getQR id info w).1 = Normal (public_view r)) ∧
   (¬ visible (clock w) r → (getQR id info w).1 = Throw NotFound)) ∧
  (durable_lookup id w = None → memoryStore w !! id = Some r →
   (expires_at r = None ∨ (∃ e, expires_at r = Some e ∧ clock w < e) →
    (getQR id info w).1 = Normal (public_view r)) ∧
   ((∃ e, expires_at r = Some e ∧ e < clock w) →
    (getQR id info w).1 = Throw NotFound)).
Proof.
  intros Hmiss. rewrite getQR_completion, Hmiss.
  unfold Retrieve_walk.
  split; [|split].
  - intros Hs Ht Hm. unfold durable_lookup.
    rewrite Hs, Ht, Hm. split.
    + intros Ha He.
      by rewrite (proj2 (sqlite_find_visible_Some _ _ _)
                    (conj eq_refl (conj Ha He))).
    + intros Hno.
      destruct (find_visible SQLite (clock w) (Some r)) as [r'|] eqn:Hf;
        [|done].
      apply sqlite_find_visible_Some in Hf as ([= <-] & Ha & He).
      destruct Hno as [Hna | (e & Hx & Hlt)]; [done|].
      destruct He as [Hnone | (e' & Hx' & Hle)]; [congruence|].
      rewrite Hx in Hx'. injection Hx' as <-. lia.
  - intros Hs Hp Ht Hm. unfold durable_lookup.
    rewrite Hs, Hp, Ht, Hm. split; intros Hv.
    + by rewrite (proj2 (find_visible_Some _ _ _) (conj eq_refl Hv)).
    + by rewrite (proj2 (find_visible_None _ _) Hv).
  - intros Hd Hm. rewrite Hd, Hm.
    unfold memory_find, expired. split.
    + intros [->|(e & -> & Hlt)]; [done|].
      by replace (e <? clock w) with false by lia.
    + intros (e & -> & Hlt). by replace (e <? clock w) with true by lia.
Qed.

(** A record generated in degraded mode and looked up at the very instant
    of its expiry: the memory tier returns it although its expiry is not in
    the future. *)
Lemma memory_tier_serves_at_expiry :
  let w0 := no_tiers (mkEnv None None) 0 in
  let r := memory_record "id-1" "AAAA" "https://x.test" w0 in
  let w := set_clock 86400000
             (generateQR "id-1" (Some "AAAA") "https://x.test"
                (mkOptions None None) w0).2 in
  memoryStore w !! "id-1" = Some r ∧
  expires_at r = Some (clock w) ∧
  ¬ visible (clock w) r ∧
  cached "id-1" w = None ∧
  (getQR "id-1" anonymous w).1 = Normal (public_view r).
Proof.
  intros w0 r w.
  split; [reflexivity|]. split; [reflexivity|]. split.
  - intros [Hact _]. discriminate Hact.
  - split; reflexivity.
Qed.

(** C1 at the failing input.  A record is generated at midnight with an
    hour to live while SQLite alone is connected.  Two hours later, an hour
    after its expiry, the record is not visible by the rule, and Retrieve
    returns it: the lookup of the primary tier compares the ISO text of
    [expires_at] with the text of [datetime('now')], and on the day of the
    expiry the ISO text is the greater at any hour.  The same row in the
    secondary tier is not found then, and the primary tier stops returning
    it on the next day. *)
Theorem sqlite_serves_expired_record :
  let w0 := sqlite_only (mkEnv (Some "1") None) 0 in
  let generated :=
    (generateQR "id-1" (Some "AAAA") "https://x.test" (mkOptions None None)
       w0).2 in
  let row := durable_record SQLite "id-1" "AAAA" "https://x.test"
               (mkOptions None None) w0 in
  let w := set_clock 7200000 generated in
  let secondary :=
    mkWorld (mkEnv None None) 7200000 None
      (Some (mkPostgres true {["id-1" := row]})) None ∅ in
  sqlite_table w !! "id-1" = Some row ∧
  expires_at row = Some 3600000 ∧
  ¬ visible (clock w) row ∧
  cached "id-1" w = None ∧
  (getQR "id-1" anonymous w).1 = Normal (public_view row) ∧
  (getQR "id-1" anonymous secondary).1 = Throw NotFound ∧
  (getQR "id-1" anonymous (set_clock 86400000 generated)).1 = Throw NotFound.
Proof.
  intros w0 generated row w secondary.
  split; [reflexivity|]. split; [reflexivity|]. split.
  - intros [_ [Hnone | (e & He & Hlt)]]; [discriminate Hnone|].
    injection He as <-. vm_compute in Hlt. discriminate Hlt.
  - vm_compute. repeat split; reflexivity.
Qed.

(** ** A run of the service *)

Example run_generate :
  (generateQR "id-A" (Some "AAAA") "https://x.test"
     (mkOptions (Some "alice") None) service_up).1
  = Normal (mkPublicQR "id-A" "https://x.test" "data:image/png;base64,AAAA"
              (Instant 0) (Some 3600000) 0).
Proof. vm_compute. reflexivity. Qed.

(** The first Retrieve is served by the cache and bumps the counter of the
    row; the view carries the count as it was. *)
Example run_retrieve :
  (getQR "id-A" anonymous after_generate).1
  = Normal (mkPublicQR "id-A" "https://x.test" "data:image/png;base64,AAAA"
              (Instant 0) (Some 3600000) 0) ∧
  access_count <$> sqlite_table (getQR "id-A" anonymous after_generate).2
                     !! "id-A" = Some 1.
Proof. vm_compute. split; reflexivity. Qed.

(** Past the hour the key of the cache has expired and the row of SQLite is
    read, with the [created_at] SQLite gave it; the row stays until the day
    is over, and then CleanupExpired removes it. *)
Example run_expiry :
  (getQR "id-A" anonymous (set_clock 3600001 after_generate)).1
  = Normal (mkPublicQR "id-A" "https://x.test" "data:image/png;base64,AAAA"
              (SqliteText 0) (Some 3600000) 0) ∧
  (cleanupExpired (set_clock 3600001 after_generate)).1 = Normal 0 ∧
  (getQR "id-A" anonymous (set_clock 86400000 after_generate)).1
  = Throw NotFound ∧
  (cleanupExpired (set_clock 86400000 after_generate)).1 = Normal 1.
Proof. vm_compute. repeat split; reflexivity. Qed.

(** Delete for another owner is refused by the durable tier; Delete for the
    owner retires the row and evicts the cache entry. *)
Example run_delete :
  (deleteQR "id-A" (Some "bob") after_generate).1 = Throw AccessDenied ∧
  (deleteQR "id-A" (Some "alice") after_generate).1 = Normal true ∧
  (getQR "id-A" anonymous
     (deleteQR "id-A" (Some "alice") after_generate).2).1 = Throw NotFound.
Proof. vm_compute. repeat split; reflexivity. Qed.

(** * Further properties *)

(** ** The cache *)

Lemma cached_frame id w1 w2 :
  client w1 = client w2 → clock w1 = clock w2 → cached id w1 = cached id w2.
Proof. unfold cached. by intros -> ->. Qed.

Lemma setCache_world key value ttl w :
  setCache key value ttl w =
  match client w with
  | Some c =>
      if isOpen c && redis_ok c && (0 <? ttl) then
        (Normal true,
         set_client (Some (mkRedis (isOpen c) (redis_ok c)
           (<[key := (value, clock w + ttl * 1000)]> (redis_keys c)))) w)
      else (Normal false, w)
  | None => (Normal false, w)
  end.
Proof.
  unfold setCache, client_unusable, client_setEx. js_unfold.
  destruct (client w) as [[[] [] ks]|] eqn:Hc; simpl; try done;
    rewrite ?Hc; simpl; by destruct (0 <? ttl).
Qed.

(** X1. A value written with [setCache] is what [getCache] returns until
    its time to live has elapsed, and nothing afterwards. *)
Theorem cache_round_trip key value ttl w later :
  (setCache key value ttl w).1 = Normal true →
  (getCache key (set_clock later (setCache key value ttl w).2)).1
  = Normal (if later <? clock w + ttl * 1000 then Some value else None).
Proof.
  rewrite setCache_world.
  destruct (client w) as [[op ok ks]|] eqn:Hc; [|discriminate].
  simpl. destruct (op && ok && (0 <? ttl)) eqn:Hu; [|discriminate].
  intros _.
  apply andb_prop in Hu as [Hu _]. apply andb_prop in Hu as [-> ->].
  unfold getCache, client_unusable, client_get. js_unfold. simpl.
  by rewrite lookup_insert_eq.
Qed.

Lemma cache_round_trip_witness :
  (getCache "qr:id-A" (set_clock 3599999
     (setCache "qr:id-A" (sample_row "id-A" None None true) 3600
        service_up).2)).1
  = Normal (Some (sample_row "id-A" None None true)) ∧
  (getCache "qr:id-A" (set_clock 3600000
     (setCache "qr:id-A" (sample_row "id-A" None None true) 3600
        service_up).2)).1
  = Normal None.
Proof.
  split.
  - apply (cache_round_trip "qr:id-A" (sample_row "id-A" None None true)
             3600 service_up 3599999). reflexivity.
  - apply (cache_round_trip "qr:id-A" (sample_row "id-A" None None true)
             3600 service_up 3600000). reflexivity.
Defined.

(** ** What a Retrieve does to the world *)

Lemma logScan_world id info w :
  logScan id info w =
  if sqlite_reachable w then
    (Normal true,
     set_db (Some (mkSqlite true (sqlite_table w)
                     (sqlite_logs w ++ [scan_row id info (clock w)]))) w)
  else (Normal false, w).
Proof.
  unfold logScan, sqlite_reachable, sqlite_table, sqlite_logs, sqliteQuery,
    insert_scan_log, scan_row.
  js_unfold.
  destruct (db w) as [[[] t logs]|]; done.
Qed.

Lemma incrementAccessCount_world id w :
  incrementAccessCount id w =
  (Normal tt,
   if sqlite_reachable w then
     set_db (Some (mkSqlite true (update_access_count id (sqlite_table w)).1
                     (sqlite_logs w))) w
   else if pg_reachable w then
     set_pool (Some (mkPostgres true
                       (update_access_count id (pg_table w)).1)) w
   else
     match memoryStore w !! id with
     | Some r => set_memoryStore (<[id := bump r]> (memoryStore w)) w
     | None => w
     end).
Proof.
  unfold incrementAccessCount, sqlite_reachable, pg_reachable, sqlite_table,
    pg_table, sqlite_logs, sqliteQuery, query, on_qr_codes, updating, bump.
  js_unfold.
  break_world w; simpl; try done.
  all: destruct (_ !! id) as [r|]; simpl; try done.
  all: unfold with_access_count; by destruct (access_count r).
Qed.

(** The world after the two side operations of a successful [getQR]. *)
Lemma getQR_run id info w :
  getQR id info w =
  match cached id w with
  | Some r =>
      (Normal (public_view r),
       (incrementAccessCount id (logScan id info w).2).2)
  | None =>
      match Retrieve_walk id w with
      | Some r =>
          (Normal (public_view r),
           (incrementAccessCount id
              (logScan id info
                 (setCache (cacheKey id) r (cache_ttl (clock w) r) w).2).2).2)
      | None =>
          (Throw NotFound,
           match memoryStore w !! id with
           | Some _ => set_memoryStore (delete id (memoryStore w)) w
           | None => w
           end)
      end
  end.
Proof.
  assert (∀ w0,
    logScan id (mkScannerInfo (ip info) (userAgent info) (location info)
                  (Some (default "{}" (info_metadata info)))) w0
    = logScan id info w0) as Hlog.
  { intros w0. rewrite !logScan_world. done. }
  unfold getQR.
  unfold try_catch at 1. unfold bind at 1. unfold try_catch at 1.
  rewrite getCache_cached.
  destruct (cached id w) as [r|].
  - unfold bind at 1. unfold ret at 1.
    unfold bind at 1. unfold try_catch at 1. unfold bind at 1.
    rewrite Hlog.
    destruct (logScan_normal id info w) as (b' & w1 & Hl). rewrite Hl.
    unfold ret at 1. unfold bind, detached, ret. simpl.
      rewrite ?Hl. reflexivity.
  - unfold bind at 1. unfold bind at 1. rewrite lookup_tiers_spec.
    destruct (Retrieve_walk id w) as [r|].
    + unfold bind at 1. unfold get_world at 1. unfold bind at 1.
      unfold try_catch at 1. unfold bind at 1.
      destruct (setCache_frame (cacheKey id) r (cache_ttl (clock w) r) w)
        as (b & c & Hs). rewrite Hs.
      unfold ret at 1. unfold ret at 1.
      unfold bind at 1. unfold try_catch at 1. unfold bind at 1.
      rewrite Hlog.
      destruct (logScan_normal id info (set_client c w)) as (b' & w1 & Hl).
      rewrite Hl.
      unfold ret at 1. unfold bind, detached, ret. simpl.
      rewrite ?Hl. reflexivity.
    + destruct (memoryStore w !! id) as [r|]; unfold throw; done.
Qed.

Lemma side_operations_keep_cache id' id info w :
  cached id' (incrementAccessCount id (logScan id info w).2).2 = cached id' w.
Proof.
  apply cached_frame.
  - rewrite incrementAccessCount_world, logScan_world. simpl.
    repeat case_match; done.
  - rewrite incrementAccessCount_world, logScan_world. simpl.
    repeat case_match; done.
Qed.

Lemma update_access_count_lookup id k (t : gmap string QRRecord) :
  (update_access_count id t).1 !! k =
  if decide (k = id) then bump <$> t !! k else t !! k.
Proof.
  unfold update_access_count, bump.
  destruct (decide (k = id)) as [->|Hne].
  - destruct (t !! id) as [r|] eqn:Hr; simpl; [|by rewrite Hr].
    by rewrite lookup_insert_eq.
  - destruct (t !! id) as [r|] eqn:Hr; simpl; [|done].
    by rewrite lookup_insert_ne.
Qed.

(** X2. Cache-aside.  When a Retrieve that missed the cache is served by a
    tier while Redis answers and the record has at least a second to live,
    the record is in the cache afterwards and the next Retrieve returns the
    same view, with the access count as it was before the first. *)
Theorem cache_aside id info r w :
  cached id w = None →
  Retrieve_walk id w = Some r →
  redis_usable w = true →
  0 < cache_ttl (clock w) r →
  (getQR id info w).1 = Normal (public_view r) ∧
  cached id (getQR id info w).2 = Some r ∧
  (getQR id info (getQR id info w).2).1 = Normal (public_view r).
Proof.
  intros Hmiss Hwalk Hredis Httl.
  assert (cached id (getQR id info w).2 = Some r) as Hcached.
  { rewrite getQR_run, Hmiss, Hwalk. simpl.
    rewrite side_operations_keep_cache, setCache_world.
    unfold redis_usable in Hredis.
    destruct (client w) as [[op ok ks]|] eqn:Hc; [|done]. simpl in Hredis.
    simpl. rewrite Hredis. replace (0 <? cache_ttl (clock w) r) with true by lia.
    simpl. unfold cached. simpl. rewrite Hredis, lookup_insert_eq.
    by replace (clock w <? clock w + cache_ttl (clock w) r * 1000)
      with true by lia. }
  split; [by rewrite getQR_completion, Hmiss, Hwalk|].
  split; [done|]. by rewrite getQR_completion, Hcached.
Qed.

Lemma cache_aside_witness :
  let w := mkWorld (mkEnv None None) 1000
             (Some (mkSqlite true
                {["id-1" := sample_row "id-1" None (Some 5000) true]} []))
             None (Some (mkRedis true true ∅)) ∅ in
  cached "id-1" w = None ∧
  cached "id-1" (getQR "id-1" anonymous w).2
    = Some (sample_row "id-1" None (Some 5000) true) ∧
  (getQR "id-1" anonymous (getQR "id-1" anonymous w).2).1
    = Normal (public_view (sample_row "id-1" None (Some 5000) true)).
Proof.
  intros w. split; [reflexivity|].
  apply (cache_aside "id-1" anonymous
           (sample_row "id-1" None (Some 5000) true) w);
    try reflexivity.
Defined.

(** X3. A successful Retrieve, while SQLite answers, appends exactly one row
    to the scan log and adds exactly one to the access count of the row
    with that id; no other row, no other column and no other tier
    changes. *)
Theorem getQR_counts_once id info v w :
  (getQR id info w).1 = Normal v →
  sqlite_reachable w = true →
  sqlite_table (getQR id info w).2 !! id = bump <$> sqlite_table w !! id ∧
  (∀ k, k ≠ id →
        sqlite_table (getQR id info w).2 !! k = sqlite_table w !! k) ∧
  sqlite_logs (getQR id info w).2
    = (sqlite_logs w ++ [scan_row id info (clock w)])%list ∧
  pool (getQR id info w).2 = pool w ∧
  memoryStore (getQR id info w).2 = memoryStore w.
Proof.
  intros Hok Hs.
  assert (∀ w0, sqlite_reachable w0 = true →
    sqlite_table (incrementAccessCount id (logScan id info w0).2).2
      = (update_access_count id (sqlite_table w0)).1 ∧
    sqlite_logs (incrementAccessCount id (logScan id info w0).2).2
      = (sqlite_logs w0 ++ [scan_row id info (clock w0)])%list ∧
    pool (incrementAccessCount id (logScan id info w0).2).2 = pool w0 ∧
    memoryStore (incrementAccessCount id (logScan id info w0).2).2
      = memoryStore w0) as Hside.
  { intros w0 H0. rewrite incrementAccessCount_world, logScan_world, H0.
    simpl. done. }
  assert (∃ w0, (getQR id info w).2
                = (incrementAccessCount id (logScan id info w0).2).2 ∧
                sqlite_reachable w0 = true ∧ db w0 = db w ∧ pool w0 = pool w ∧
                memoryStore w0 = memoryStore w ∧ clock w0 = clock w)
    as (w0 & -> & H0 & Hdb & Hpool & Hmem & Hclock).
  { rewrite getQR_run in Hok |- *.
    destruct (cached id w) as [r|]; [by exists w|].
    destruct (Retrieve_walk id w) as [r|]; [|done].
    destruct (setCache_frame (cacheKey id) r (cache_ttl (clock w) r) w)
      as (b & c & Hset).
    exists (set_client c w). rewrite Hset. done. }
  destruct (Hside w0 H0) as (Ht & Hl & Hp & Hm).
  assert (sqlite_table w0 = sqlite_table w) as Htab
    by (unfold sqlite_table; by rewrite Hdb).
  assert (sqlite_logs w0 = sqlite_logs w) as Hlogs
    by (unfold sqlite_logs; by rewrite Hdb).
  rewrite Ht, Hl, Hp, Hm, Htab, Hlogs, Hclock.
  split; [|split; [|done]].
  - rewrite update_access_count_lookup. by rewrite decide_True.
  - intros k Hk. rewrite update_access_count_lookup. by rewrite decide_False.
Qed.

Lemma getQR_counts_once_witness :
  access_count <$> sqlite_table (getQR "id-A" anonymous after_generate).2
                     !! "id-A" = Some 1 ∧
  length (sqlite_logs (getQR "id-A" anonymous after_generate).2) = 1%nat.
Proof.
  destruct (getQR_counts_once "id-A" anonymous
              (mkPublicQR "id-A" "https://x.test"
                 "data:image/png;base64,AAAA" (Instant 0) (Some 3600000) 0)
              after_generate eq_refl eq_refl) as (Hrow & _ & Hlog & _).
  rewrite Hrow, Hlog. split; reflexivity.
Defined.

(** X4. A Retrieve that fails fails with the not-found error and leaves the
    environment, both durable tiers, the scan log and the cache as they
    were: nothing is logged and nothing is counted.  Its only effect is to
    drop the expired entry of the memory store, if there is one. *)
Theorem getQR_failure_is_quiet id info e w :
  (getQR id info w).1 = Throw e →
  e = NotFound ∧
  env (getQR id info w).2 = env w ∧
  db (getQR id info w).2 = db w ∧
  pool (getQR id info w).2 = pool w ∧
  client (getQR id info w).2 = client w ∧
  memoryStore (getQR id info w).2 = delete id (memoryStore w).
Proof.
  rewrite getQR_run.
  destruct (cached id w) as [r|]; [done|].
  destruct (Retrieve_walk id w) as [r|]; [done|].
  simpl. intros [= <-].
  destruct (memoryStore w !! id) as [r|] eqn:Hm; simpl; [done|].
  by rewrite delete_id.
Qed.

Lemma getQR_failure_is_quiet_witness :
  let w := set_clock 3600001
             (generateQR "id-1" (Some "AAAA") "https://x.test"
                (mkOptions None None)
                (no_tiers (mkEnv (Some "1") None) 0)).2 in
  is_Some (memoryStore w !! "id-1") ∧
  memoryStore (getQR "id-1" anonymous w).2 = ∅.
Proof.
  intros w. split; [vm_compute; eauto|].
  destruct (getQR_failure_is_quiet "id-1" anonymous NotFound w eq_refl)
    as (_ & _ & _ & _ & _ & Hm).
  rewrite Hm. vm_compute. reflexivity.
Defined.

(** ** What a Generate does to the world *)

Lemma generateQR_effects uuid image data options w :
  sqlite_reachable (generateQR uuid (Some image) data options w).2
    = sqlite_reachable w ∧
  pg_reachable (generateQR uuid (Some image) data options w).2
    = pg_reachable w ∧
  clock (generateQR uuid (Some image) data options w).2 = clock w ∧
  sqlite_logs (generateQR uuid (Some image) data options w).2
    = sqlite_logs w ∧
  sqlite_table (generateQR uuid (Some image) data options w).2 =
    (if sqlite_insert_refused uuid w then sqlite_table w
     else <[uuid := durable_record SQLite uuid image data options w]>
            (sqlite_table w)) ∧
  pg_table (generateQR uuid (Some image) data options w).2 =
    (if negb (sqlite_insert_refused uuid w) || pg_insert_refused uuid w
     then pg_table w
     else <[uuid := durable_record PostgreSQL uuid image data options w]>
            (pg_table w)) ∧
  (0 < expiry_hours w →
   ∀ v, (generateQR uuid (Some image) data options w).1 = Normal v →
   ∃ r, public_view r = v ∧
        cached uuid (generateQR uuid (Some image) data options w).2
        = if redis_usable w then Some r else None).
Proof.
  unfold generateQR, sqlite_insert_refused, pg_insert_refused,
    sqlite_reachable, pg_reachable, sqlite_table, pg_table, sqlite_logs,
    is_production, durable_record, expiry_hours, public_view, redis_usable,
    sqliteQuery, query, on_qr_codes, insert_qr_code.
  js_unfold.
  break_world w; simpl.
  all: repeat match goal with
       | |- context [@lookup _ _ (gmap string QRRecord) _ ?k ?t] =>
           destruct (t !! k) eqn:?; simpl
       end.
  all: repeat match goal with
       | |- context [bool_decide ?P] => destruct (bool_decide P) eqn:?; simpl
       end.
  all: rewrite ?setCache_world; simpl.
  all: repeat match goal with
       | |- context [match ?c with Some _ => _ | None => _ end] =>
           is_var c; destruct c as [[[] [] ?]|]; simpl
       end.
  all: repeat match goal with
       | |- context [0 <? ?n] => destruct (0 <? n) eqn:?; simpl
       end.
  all: repeat split; try done.
  all: try (exfalso; match goal with H : bool_decide _ = _ |- _ => revert H end;
       rewrite ?bool_decide_eq_false, ?bool_decide_eq_true;
       eauto using is_Some_None; fail).
  all: intros Hh v' Hv; try discriminate Hv; injection Hv as <-.
  all: try lia.
  all: unfold cached; simpl; rewrite ?lookup_insert_eq.
  all: first
    [ eexists; split;
      [|first [reflexivity |
         match goal with
         | |- context [?a <? ?b] => replace (a <? b) with true by lia
         end; reflexivity]]; reflexivity
    | match goal with
      | |- ex (λ r, @?L r = ?v ∧ @?R r) =>
          exists (record_of_view v)
      end; split; reflexivity ].
Qed.

(** X5. Generate writes the record to exactly one tier: SQLite if it takes
    the row, otherwise PostgreSQL if it takes the row, otherwise the memory
    store.  No other record of any tier is touched, nothing is written to
    the scan log, and when rendering fails nothing is written at all. *)
Theorem generateQR_stores_once uuid image data options w :
  sqlite_table (generateQR uuid (Some image) data options w).2 =
    (if sqlite_insert_refused uuid w then sqlite_table w
     else <[uuid := durable_record SQLite uuid image data options w]>
            (sqlite_table w)) ∧
  pg_table (generateQR uuid (Some image) data options w).2 =
    (if negb (sqlite_insert_refused uuid w) || pg_insert_refused uuid w
     then pg_table w
     else <[uuid := durable_record PostgreSQL uuid image data options w]>
            (pg_table w)) ∧
  memoryStore (generateQR uuid (Some image) data options w).2 =
    (if sqlite_insert_refused uuid w && pg_insert_refused uuid w
     then <[uuid := memory_record uuid image data w]> (memoryStore w)
     else memoryStore w) ∧
  sqlite_logs (generateQR uuid (Some image) data options w).2
    = sqlite_logs w ∧
  generateQR uuid None data options w
    = (Throw "Failed to generate QR code", w).
Proof.
  destruct (generateQR_effects uuid image data options w)
    as (_ & _ & _ & Hlogs & Hs & Hp & _).
  destruct (generateQR_spec uuid image data options w) as (_ & Hm & _).
  done.
Qed.

Lemma fresh_not_refused (t : gmap string QRRecord) (uuid : string) reachable :
  t !! uuid = None →
  negb reachable || bool_decide (is_Some (t !! uuid)) = negb reachable.
Proof.
  intros ->. rewrite bool_decide_eq_false_2; [by rewrite orb_false_r|].
  by intros [? ?].
Qed.

Lemma fresh_row_unexpired d now h r :
  0 < h → expires_at r = Some (now + h * 60 * 60 * 1000) →
  unexpired_in d now r = true.
Proof.
  intros Hh He. destruct d; simpl.
  - apply sqlite_unexpired_iff. right. eexists. split; [done|].
    apply day_le_mono. lia.
  - unfold unexpired. rewrite He. lia.
Qed.

(** X6. Round trip.  A record generated under a fresh id with a positive
    time to live can be retrieved at once, from whichever tier took it.
    Retrieve returns the view Generate returned, but for one field when
    SQLite took the record and the cache is not usable: [createdAt] is then
    the [CURRENT_TIMESTAMP] the row got from SQLite, in whole seconds and in
    the form of SQLite, where Generate returned its own ISO instant. *)
Theorem generate_then_retrieve uuid image content options info v w :
  sqlite_table w !! uuid = None →
  pg_table w !! uuid = None →
  memoryStore w !! uuid = None →
  0 < expiry_hours w →
  (generateQR uuid (Some image) content options w).1 = Normal v →
  createdAt v = Instant (clock w) ∧
  (getQR uuid info (generateQR uuid (Some image) content options w).2).1
    = Normal (mkPublicQR (id v) (data v) (qrImageUrl v)
                (if redis_usable w || negb (sqlite_reachable w)
                 then createdAt v else datetime_now (clock w))
                (expiresAt v) (accessCount v)).
Proof.
  intros Hfs Hfp Hfm Hh Hv.
  destruct (generateQR_effects uuid image content options w)
    as (Hrs & Hrp & Hclock & _ & Hs & Hp & Hcache).
  destruct (generateQR_spec uuid image content options w) as (Hc & Hm & _).
  destruct (Hcache Hh v Hv) as (r & Hr & Hcached).
  rewrite Hv in Hc.
  assert (v = public_view (memory_record uuid image content w)) as Hview.
  { destruct (sqlite_insert_refused uuid w && pg_insert_refused uuid w
              && is_production w); [done|]. by injection Hc as ->. }
  split; [by rewrite Hview|].
  rewrite getQR_completion, Hcached.
  destruct (redis_usable w); [by rewrite Hr; destruct v|].
  unfold Retrieve_walk, durable_lookup.
  rewrite Hrs, Hrp, Hclock, Hs, Hp, Hm.
  unfold sqlite_insert_refused, pg_insert_refused in *.
  rewrite (fresh_not_refused _ _ _ Hfs), (fresh_not_refused _ _ _ Hfp) in *.
  assert (∀ d, find_visible d (clock w)
            (Some (durable_record d uuid image content options w))
          = Some (durable_record d uuid image content options w)) as Hvis.
  { intros d. unfold find_visible.
    by rewrite (fresh_row_unexpired d (clock w) (expiry_hours w)). }
  destruct (sqlite_reachable w); cbn [negb orb andb] in *.
  { by rewrite lookup_insert_eq, Hvis, Hview. }
  destruct (pg_reachable w); cbn [negb orb andb] in *.
  { by rewrite lookup_insert_eq, Hvis, Hview. }
  rewrite lookup_insert_eq.
  unfold memory_find, expired. unfold memory_record at 1. simpl.
  replace (clock w + expiry_hours w * 60 * 60 * 1000 <? clock w)
    with false by lia.
  by rewrite Hview.
Qed.

Lemma generate_then_retrieve_witness :
  let w := mkWorld (mkEnv None None) 1500
             (Some (mkSqlite true ∅ [])) (Some (mkPostgres true ∅)) None ∅ in
  (generateQR "id-1" (Some "AAAA") "https://x.test"
     (mkOptions (Some "alice") None) w).1
  = Normal (mkPublicQR "id-1" "https://x.test" "data:image/png;base64,AAAA"
              (Instant 1500) (Some 86401500) 0) ∧
  (getQR "id-1" anonymous
     (generateQR "id-1" (Some "AAAA") "https://x.test"
        (mkOptions (Some "alice") None) w).2).1
  = Normal (mkPublicQR "id-1" "https://x.test" "data:image/png;base64,AAAA"
              (SqliteText 1) (Some 86401500) 0).
Proof.
  intros w. split; [reflexivity|].
  apply (generate_then_retrieve "id-1" "AAAA" "https://x.test"
           (mkOptions (Some "alice") None) anonymous
           (mkPublicQR "id-1" "https://x.test" "data:image/png;base64,AAAA"
              (Instant 1500) (Some 86401500) 0) w);
    reflexivity.
Defined.

(** ** What a Delete does to the world *)

Lemma deleteCache_world key w :
  deleteCache key w =
  match client w with
  | Some c =>
      if isOpen c && redis_ok c then
        (Normal true,
         set_client (Some (mkRedis (isOpen c) (redis_ok c)
                            (delete key (redis_keys c)))) w)
      else (Normal false, w)
  | None => (Normal false, w)
  end.
Proof.
  unfold deleteCache, client_unusable, client_del. js_unfold.
  destruct (client w) as [[[] [] ks]|] eqn:Hc; simpl; try done;
    rewrite ?Hc; simpl; done.
Qed.

Lemma deleteQR_throw id userId e w :
  (deleteQR id userId w).1 = Throw e →
  e = AccessDenied ∧ (deleteQR id userId w).2 = w.
Proof.
  unfold deleteQR, sqliteQuery, query, on_qr_codes, updating.
  js_unfold.
  break_world w; simpl.
  all: repeat match goal with
       | |- context [deleteQuery ?a ?b ?t] =>
           pose proof (deleteQuery_unmatched a b t);
           destruct (deleteQuery a b t) as [t' n] eqn:?; simpl in *
       end.
  all: repeat match goal with
       | |- context [0 <? ?n] => destruct (0 <? n) eqn:?; simpl
       end.
  all: repeat match goal with
       | |- context [@lookup _ _ (gmap string QRRecord) _ ?k ?t] =>
           destruct (t !! k) eqn:?; simpl
       end.
  all: try match goal with
       | |- context [deleteCache ?k ?w] =>
           destruct (deleteCache_frame k w) as (? & ? & ->); simpl
       end.
  all: try discriminate.
  all: intros [= <-]; split; [done|].
  all: repeat match goal with
       | H : false = false → _ |- _ => specialize (H eq_refl); subst
       end.
  all: done.
Qed.

(** X7. Delete fails exactly when the durable tier it reaches retires no
    row and the memory store has no entry for the id.  It then fails with
    the access-denied error and changes nothing at all. *)
Theorem deleteQR_failure_changes_nothing id userId w :
  (durable_retired id userId w = false → memoryStore w !! id = None →
   deleteQR id userId w = (Throw AccessDenied, w)) ∧
  (∀ e, (deleteQR id userId w).1 = Throw e →
        e = AccessDenied ∧ (deleteQR id userId w).2 = w ∧
        durable_retired id userId w = false ∧ memoryStore w !! id = None).
Proof.
  destruct (deleteQR_spec id userId w) as (Hc & _).
  split.
  - intros Hd Hm.
    rewrite Hd, Hm, bool_decide_eq_false_2 in Hc by (by intros [? ?]).
    destruct (deleteQR_throw id userId AccessDenied w Hc) as [_ Hw].
    destruct (deleteQR id userId w) as [c w']. simpl in *. by subst.
  - intros e He.
    destruct (deleteQR_throw id userId e w He) as [-> Hw].
    split; [done|]. split; [done|].
    rewrite He in Hc.
    destruct (durable_retired id userId w); [done|].
    destruct (memoryStore w !! id) as [r|]; [|done].
    rewrite bool_decide_eq_true_2 in Hc by eauto. done.
Qed.

Lemma deleteQR_failure_changes_nothing_witness :
  deleteQR "id-B" None after_generate = (Throw AccessDenied, after_generate).
Proof.
  apply (deleteQR_failure_changes_nothing "id-B" None after_generate);
    reflexivity.
Defined.

(** X8. Owner scope on a durable tier.  When the tier Delete reaches holds
    the row under another owner and the memory store has no entry, Delete
    fails and the world, the row included, is as before. *)
Theorem deleteQR_other_owner id userId r w :
  truthy userId = true →
  user_id_is userId r = false →
  memoryStore w !! id = None →
  (sqlite_reachable w = true ∧ sqlite_table w !! id = Some r) ∨
  (sqlite_reachable w = false ∧ pg_reachable w = true ∧
   pg_table w !! id = Some r) →
  deleteQR id userId w = (Throw AccessDenied, w).
Proof.
  intros Ht Hu Hm Htier.
  assert ((deleteQR id userId w).1 = Throw AccessDenied) as Hfail.
  { destruct (deleteQR_spec id userId w) as (-> & _).
    unfold durable_retired.
    rewrite Hm, bool_decide_eq_false_2 by (by intros [? ?]).
    destruct Htier as [[-> Hr] | (-> & -> & Hr)];
      by rewrite (deleteQuery_other_owner _ _ _ _ Hr Ht Hu). }
  destruct (deleteQR_throw id userId AccessDenied w Hfail)
    as [_ Hw].
  destruct (deleteQR id userId w) as [c w']. simpl in *. by subst.
Qed.

Lemma deleteQR_other_owner_witness :
  deleteQR "id-A" (Some "bob") after_generate
  = (Throw AccessDenied, after_generate).
Proof.
  apply (deleteQR_other_owner "id-A" (Some "bob")
           (durable_record SQLite "id-A" "AAAA" "https://x.test"
              (mkOptions (Some "alice") None) service_up)
           after_generate); try reflexivity.
  left. split; reflexivity.
Defined.

Lemma deleteQR_client id userId w :
  (deleteQR id userId w).1 = Normal true →
  clock (deleteQR id userId w).2 = clock w ∧
  client (deleteQR id userId w).2 = client (deleteCache (cacheKey id) w).2.
Proof.
  unfold deleteQR, sqliteQuery, query, on_qr_codes, updating.
  js_unfold.
  break_world w; simpl.
  all: repeat match goal with
       | |- context [deleteQuery ?a ?b ?t] =>
           destruct (deleteQuery a b t) as [t' n] eqn:?; simpl
       end.
  all: repeat match goal with
       | |- context [0 <? ?n] => destruct (0 <? n) eqn:?; simpl
       end.
  all: repeat match goal with
       | |- context [@lookup _ _ (gmap string QRRecord) _ ?k ?t] =>
           destruct (t !! k) eqn:?; simpl
       end.
  all: rewrite ?deleteCache_world; simpl.
  all: repeat match goal with
       | |- context [match ?c with Some _ => _ | None => _ end] =>
           is_var c; destruct c as [[[] [] ?]|]; simpl
       end.
  all: try discriminate.
  all: done.
Qed.

Lemma retired_not_visible d id now (t : gmap string QRRecord) :
  find_visible d now ((update_retire id t).1 !! id) = None.
Proof.
  unfold update_retire.
  destruct (t !! id) as [r|] eqn:Hr; simpl; [|by rewrite Hr].
  by rewrite lookup_insert_eq.
Qed.

(** X9. After a Delete without owner that returned true, the row of the
    tier it reached is retired and the memory entry is removed, so no tier
    returns the record any more, at any later instant.  The key of the cache
    is removed only when Redis answers during the call: Retrieve then fails
    with the not-found error at once.  When Redis does not answer, Delete
    still returns true and the cache is left as it was. *)
Theorem delete_then_retrieve id userId info w :
  truthy userId = false →
  (deleteQR id userId w).1 = Normal true →
  (∀ now, Retrieve_walk id (set_clock now (deleteQR id userId w).2) = None) ∧
  (redis_usable w = true →
   (∀ c, client (deleteQR id userId w).2 = Some c →
         redis_keys c !! cacheKey id = None) ∧
   (getQR id info (deleteQR id userId w).2).1 = Throw NotFound) ∧
  (redis_usable w = false → client (deleteQR id userId w).2 = client w).
Proof.
  intros Hu Hok.
  destruct (deleteQR_client id userId w Hok) as [Hclock Hclient].
  destruct (deleteQR_spec id userId w) as (_ & Hm & Hrs & Hrp & Hs & Hp).
  assert (∀ now, Retrieve_walk id (set_clock now (deleteQR id userId w).2)
                 = None) as Hwalk.
  { intros now. unfold Retrieve_walk, durable_lookup.
    change (sqlite_reachable (set_clock now ?x)) with (sqlite_reachable x).
    change (pg_reachable (set_clock now ?x)) with (pg_reachable x).
    change (sqlite_table (set_clock now ?x)) with (sqlite_table x).
    change (pg_table (set_clock now ?x)) with (pg_table x).
    change (memoryStore (set_clock now ?x)) with (memoryStore x).
    rewrite Hrs, Hrp, Hs, Hp, Hm, lookup_delete_eq.
    unfold deleteQuery. rewrite Hu.
    destruct (sqlite_reachable w); [by rewrite retired_not_visible|].
    destruct (pg_reachable w); [by rewrite retired_not_visible|done]. }
  split; [done|].
  rewrite Hclient, deleteCache_world. unfold redis_usable.
  destruct (client w) as [[op ok ks]|] eqn:Hc; simpl; [|by rewrite Hc].
  destruct (op && ok) eqn:Hu'; simpl; [|by rewrite Hc].
  split; [|done]. intros _.
  split; [intros c [= <-]; simpl; apply lookup_delete_eq|].
  assert (cached id (deleteQR id userId w).2 = None) as Hcached.
  { unfold cached. rewrite Hclient, deleteCache_world, Hc. simpl.
    rewrite Hu'. simpl. by rewrite Hu', lookup_delete_eq. }
  rewrite getQR_completion, Hcached.
  specialize (Hwalk (clock (deleteQR id userId w).2)).
  replace (set_clock _ _) with (deleteQR id userId w).2 in Hwalk
    by (by destruct (deleteQR id userId w).2).
  by rewrite Hwalk.
Qed.

Lemma delete_then_retrieve_witness :
  (getQR "id-A" anonymous (deleteQR "id-A" None after_generate).2).1
  = Throw NotFound.
Proof.
  apply (delete_then_retrieve "id-A" None anonymous after_generate);
    reflexivity.
Defined.

(** Redis does not answer while the record is deleted and answers again
    afterwards: the deleted record is served from the cache. *)
Lemma deleted_record_served_from_cache :
  let refusing :=
    set_client (Some (mkRedis true false
                        {["qr:id-A" := (sample_row "id-A" None None true,
                                        3600000)]}))
      after_generate in
  let deleted := (deleteQR "id-A" None refusing).2 in
  let restored :=
    set_client (Some (mkRedis true true
                        {["qr:id-A" := (sample_row "id-A" None None true,
                                        3600000)]}))
      deleted in
  (deleteQR "id-A" None refusing).1 = Normal true ∧
  client deleted = client refusing ∧
  (getQR "id-A" anonymous restored).1
    = Normal (public_view (sample_row "id-A" None None true)).
Proof. vm_compute. repeat split; reflexivity. Qed.

(** ** CleanupExpired and the other operations *)

Lemma unexpired_rows_idem exp now t :
  unexpired_rows exp now (unexpired_rows exp now t) = unexpired_rows exp now t.
Proof.
  unfold unexpired_rows. rewrite map_filter_filter.
  apply map_filter_ext. intros k r _. simpl. tauto.
Qed.

Lemma expired_rows_unexpired exp now t :
  expired_rows exp now (unexpired_rows exp now t) = ∅.
Proof.
  unfold expired_rows, unexpired_rows. rewrite map_filter_filter.
  apply map_empty. intros k. apply map_lookup_filter_None.
  right. intros r _. simpl. destruct (exp now r); simpl; tauto.
Qed.

Lemma count_expired_unexpired exp now t :
  count_expired exp now (unexpired_rows exp now t) = 0.
Proof.
  unfold count_expired. by rewrite expired_rows_unexpired, map_size_empty.
Qed.

Lemma cleanupExpired_world w :
  cleanupExpired w =
  (Normal (durable_purged w + count_expired expired (clock w) (memoryStore w)),
   mkWorld (env w) (clock w)
     (match db w with
      | Some s =>
          if sqlite_ok s then
            Some (mkSqlite true
                    (unexpired_rows sqlite_expired (clock w)
                       (sqlite_qr_codes s))
                    (qr_scan_logs s))
          else db w
      | None => None
      end)
     (if sqlite_reachable w then pool w
      else match pool w with
           | Some p =>
               if pg_ok p then
                 Some (mkPostgres true
                         (unexpired_rows expired (clock w) (pg_qr_codes p)))
               else pool w
           | None => None
           end)
     (client w)
     (unexpired_rows expired (clock w) (memoryStore w))).
Proof.
  unfold cleanupExpired, durable_purged, sqlite_reachable, pg_reachable,
    sqlite_table, pg_table, sqliteQuery, query, on_qr_codes, delete_expired.
  js_unfold.
  pose proof number_or_zero as Hn.
  remember number_or as n_or eqn:Hdef.
  break_world w; simpl.
  all: rewrite ?purge_memory_spec; simpl.
  all: rewrite ?Hn.
  all: rewrite add_if_positive by apply count_expired_nonneg.
  all: done.
Qed.

(** X10. CleanupExpired is idempotent: run again at the same instant it
    returns 0 and leaves the world as the first run left it. *)
Theorem cleanupExpired_idempotent w :
  cleanupExpired (cleanupExpired w).2 = (Normal 0, (cleanupExpired w).2).
Proof.
  rewrite (cleanupExpired_world w). simpl.
  rewrite cleanupExpired_world. simpl.
  unfold durable_purged, sqlite_reachable, pg_reachable, sqlite_table,
    pg_table. simpl.
  destruct (db w) as [[[] t logs]|], (pool w) as [[[] pt]|]; simpl.
  all: rewrite ?count_expired_unexpired, ?unexpired_rows_idem.
  all: try done.
  all: unfold sqlite_reachable; simpl; done.
Qed.

(** A row the purge of a tier removes is one the lookup of that tier does
    not return. *)
Lemma expired_not_visible d now r :
  expired_in d now r = true → find_visible d now (Some r) = None.
Proof.
  unfold find_visible. intros He.
  replace (unexpired_in d now r) with false; [by rewrite andb_false_r|].
  destruct d; simpl in *.
  - unfold sqlite_expired, sqlite_unexpired, text_ltb, datetime_now in *.
    destruct (expires_at r) as [e|]; [|done]. lia.
  - unfold expired, unexpired in *.
    destruct (expires_at r) as [e|]; [|done]. lia.
Qed.

Lemma unexpired_rows_lookup_cases exp id now t :
  (unexpired_rows exp now t !! id = t !! id) ∨
  (unexpired_rows exp now t !! id = None ∧
   ∃ r, t !! id = Some r ∧ exp now r = true).
Proof.
  unfold unexpired_rows.
  destruct (filter _ t !! id) as [q|] eqn:Hf.
  - apply map_lookup_filter_Some in Hf as [Ht _]. left. by rewrite Ht.
  - apply map_lookup_filter_None in Hf as [Hn | Hall]; [left; by rewrite Hn|].
    destruct (t !! id) as [r|] eqn:Hr; [|by left].
    right. split; [done|]. exists r. split; [done|].
    specialize (Hall r eq_refl). simpl in Hall.
    destruct (exp now r); [done|]. by destruct Hall.
Qed.

Lemma find_visible_unexpired_rows d id now t :
  find_visible d now (unexpired_rows (expired_in d) now t !! id)
  = find_visible d now (t !! id).
Proof.
  destruct (unexpired_rows_lookup_cases (expired_in d) id now t)
    as [-> | (-> & r & -> & He)]; [done|].
  by rewrite expired_not_visible.
Qed.

Lemma memory_find_unexpired_rows id now t :
  memory_find now (unexpired_rows expired now t !! id)
  = memory_find now (t !! id).
Proof.
  destruct (unexpired_rows_lookup_cases expired id now t)
    as [-> | (-> & r & -> & He)]; [done|].
  simpl. by rewrite He.
Qed.

(** X11. CleanupExpired never changes what Retrieve returns: for every id,
    Retrieve after the cleanup completes as it would have without it. *)
Theorem cleanupExpired_keeps_retrieve id info w :
  (getQR id info (cleanupExpired w).2).1 = (getQR id info w).1.
Proof.
  rewrite !getQR_completion.
  rewrite (cleanupExpired_world w). simpl.
  replace (cached id _) with (cached id w) by (by apply cached_frame).
  destruct (cached id w); [done|].
  unfold Retrieve_walk, durable_lookup, sqlite_reachable, pg_reachable,
    sqlite_table, pg_table. simpl.
  rewrite memory_find_unexpired_rows.
  destruct (db w) as [[[] t logs]|], (pool w) as [[[] pt]|]; simpl.
  all: rewrite ?(find_visible_unexpired_rows SQLite),
         ?(find_visible_unexpired_rows PostgreSQL); done.
Qed.

(** ** Numbers through strings *)

Lemma digit_value_pretty d :
  (d < 10)%N → digit_value 10 (pretty_N_char d) = Some (Z.of_N d).
Proof.
  intros Hd.
  assert (d = 0 ∨ d = 1 ∨ d = 2 ∨ d = 3 ∨ d = 4 ∨ d = 5 ∨ d = 6 ∨ d = 7
          ∨ d = 8 ∨ d = 9)%N as Hcases by lia.
  repeat destruct Hcases as [->|Hcases]; try reflexivity.
  subst. reflexivity.
Qed.

Lemma parse_digits_pretty x s :
  (0 < x)%N →
  parse_digits 10 None (pretty_N_go x s) = parse_digits 10 (Some (Z.of_N x)) s.
Proof.
  revert s. induction (N.lt_wf_0 x) as [x _ IH]. intros s Hx.
  rewrite pretty_N_go_step by done.
  assert (x `mod` 10 < 10)%N as Hmod by (apply N.mod_lt; lia).
  pose proof (N.div_mod x 10 ltac:(lia)) as Hdm.
  destruct (decide (x `div` 10 = 0)%N) as [Hz|Hnz].
  - rewrite Hz, pretty_N_go_0. simpl.
    rewrite digit_value_pretty by done. simpl.
    f_equal. f_equal. lia.
  - rewrite IH; [| apply N.div_lt; lia | lia]. simpl.
    rewrite digit_value_pretty by done. simpl.
    f_equal. f_equal. lia.
Qed.

(** The first character of a positive number in decimal is a digit from 1
    to 9. *)
Lemma pretty_N_go_head x s :
  (0 < x)%N →
  ∃ d s', (1 ≤ d ≤ 9)%N ∧ pretty_N_go x s = String (pretty_N_char d) s'.
Proof.
  revert s. induction (N.lt_wf_0 x) as [x _ IH]. intros s Hx.
  rewrite pretty_N_go_step by done.
  assert (x `mod` 10 < 10)%N as Hmod by (apply N.mod_lt; lia).
  pose proof (N.div_mod x 10 ltac:(lia)) as Hdm.
  destruct (decide (x `div` 10 = 0)%N) as [Hz|Hnz].
  - rewrite Hz, pretty_N_go_0. exists (x `mod` 10)%N, s. split; [lia|done].
  - apply IH; [apply N.div_lt; lia | lia].
Qed.

Lemma parseInt_positive_digits d s' :
  (1 ≤ d ≤ 9)%N →
  parseInt (Some (String (pretty_N_char d) s'))
  = parse_digits 10 None (String (pretty_N_char d) s').
Proof.
  intros Hd.
  assert (d = 1 ∨ d = 2 ∨ d = 3 ∨ d = 4 ∨ d = 5 ∨ d = 6 ∨ d = 7
          ∨ d = 8 ∨ d = 9)%N as Hcases by lia.
  repeat destruct Hcases as [->|Hcases]; try reflexivity.
  subst. reflexivity.
Qed.

Lemma parse_unsigned_positive_digits d s' :
  (1 ≤ d ≤ 9)%N →
  parse_unsigned (String (pretty_N_char d) s')
  = parse_digits 10 None (String (pretty_N_char d) s').
Proof.
  intros Hd.
  assert (d = 1 ∨ d = 2 ∨ d = 3 ∨ d = 4 ∨ d = 5 ∨ d = 6 ∨ d = 7
          ∨ d = 8 ∨ d = 9)%N as Hcases by lia.
  repeat destruct Hcases as [->|Hcases]; try reflexivity.
  subst. reflexivity.
Qed.

(** [parseInt(n.toString())] is [n], for every integer [n]. *)
Lemma parseInt_toString_any z : parseInt (Some (toString z)) = Some z.
Proof.
  destruct z as [|p|p]; [reflexivity| |].
  - change (toString (Z.pos p)) with (pretty_N_go (N.pos p) "").
    destruct (pretty_N_go_head (N.pos p) "" ltac:(lia)) as (d & s' & Hd & Hs).
    pose proof (parse_digits_pretty (N.pos p) "" ltac:(lia)) as Hp.
    rewrite Hs in *. rewrite parseInt_positive_digits by done.
    rewrite Hp. done.
  - change (toString (Z.neg p)) with (String "-" (pretty_N_go (N.pos p) "")).
    destruct (pretty_N_go_head (N.pos p) "" ltac:(lia)) as (d & s' & Hd & Hs).
    pose proof (parse_digits_pretty (N.pos p) "" ltac:(lia)) as Hp.
    rewrite Hs in *.
    change (parseInt (Some (String "-" (String (pretty_N_char d) s'))))
      with (Z.opp <$> parse_unsigned (String (pretty_N_char d) s')).
    rewrite parse_unsigned_positive_digits by done.
    rewrite Hp. done.
Qed.

(** ** The routes *)

Lemma number_or_parseInt_toString z :
  number_or (parseInt (Some (toString z))) 0 = z.
Proof. rewrite parseInt_toString_any. by destruct z. Qed.

Lemma size_filter_le (P : string * QRRecord → Prop) `{!∀ kv, Decision (P kv)}
    (m : gmap string QRRecord) :
  0 ≤ Z.of_nat (size (filter P m)) ≤ Z.of_nat (size m).
Proof.
  pose proof (map_subseteq_size _ _ (map_filter_subseteq P m)). lia.
Qed.

Lemma memory_active_le now userId m :
  0 ≤ memory_active now userId m ≤ memory_total userId m.
Proof.
  unfold memory_active, memory_total.
  assert (filter (λ kv : string * QRRecord,
                    Is_true (counted_for userId kv.2 && unexpired now kv.2)) m
          ⊆ filter (λ kv, Is_true (counted_for userId kv.2)) m) as Hsub.
  { apply map_filter_strong_subseteq_ext. intros k r [Hp Hr]. split; [|done].
    simpl in *. by destruct (counted_for userId r). }
  apply map_subseteq_size in Hsub. lia.
Qed.

Lemma select_stats_le d userId now t :
  0 ≤ row_active_codes (select_stats d userId now t)
    ≤ row_total_codes (select_stats d userId now t).
Proof. unfold select_stats. simpl. apply size_filter_le. Qed.

Lemma stats_numbers_le userId w :
  0 ≤ (stats_numbers userId w).1.2 ≤ (stats_numbers userId w).1.1.
Proof.
  unfold stats_numbers.
  destruct (sqlite_reachable w); [apply select_stats_le|].
  destruct (pg_reachable w); [apply select_stats_le|].
  apply memory_active_le.
Qed.

(** The numbers ComputeStats reports, from the first tier that answers. *)
Lemma getStats_numbers userId w :
  ∃ scans scanners codes,
    getStats userId w =
      (Normal (mkStats (toString (stats_numbers userId w).1.1)
                 (toString (stats_numbers userId w).1.2)
                 (toString (stats_numbers userId w).2)
                 scans scanners codes), w).
Proof.
  unfold stats_numbers.
  destruct (sqlite_reachable w) eqn:Hs; [|destruct (pg_reachable w) eqn:Hp].
  - revert Hs.
    unfold getStats, getScanStats, sqlite_reachable, sqlite_table,
      sqliteQuery, query, on_qr_codes, selecting, select_scan_stats.
    js_unfold.
    remember (select_stats SQLite userId) as sel.
    pose proof number_or_zero as Hn.
    remember number_or as n_or eqn:Hdef.
    break_world w; simpl; try done; intros _.
    all: rewrite !Hn.
    all: by eexists _, _, _.
  - revert Hs Hp.
    unfold getStats, getScanStats, sqlite_reachable, pg_reachable, pg_table,
      sqliteQuery, query, on_qr_codes, selecting, select_scan_stats.
    js_unfold.
    remember (select_stats PostgreSQL userId) as sel.
    pose proof number_or_zero as Hn.
    remember number_or as n_or eqn:Hdef.
    break_world w; simpl; try done; intros _ _.
    all: rewrite !Hn.
    all: by eexists _, _, _.
  - rewrite getStats_memory by done. by eexists _, _, _.
Qed.

(** X12. [GET /stats] always answers 200 and changes nothing.  The three
    numbers of the body are those of the tier that answers ComputeStats:
    the strings ComputeStats returns are their decimal forms and the route
    reads them back unchanged.  The number of active codes is between 0 and
    the total. *)
Theorem get_stats_reply frames userId w :
  get_stats frames userId w
    = (Normal (mkReply 200
                 (StatsBody (stats_numbers userId w).1.1
                    (stats_numbers userId w).1.2
                    (stats_numbers userId w).2)), w) ∧
  (∃ scans scanners codes,
     getStats userId w =
       (Normal (mkStats (toString (stats_numbers userId w).1.1)
                  (toString (stats_numbers userId w).1.2)
                  (toString (stats_numbers userId w).2)
                  scans scanners codes), w)) ∧
  0 ≤ (stats_numbers userId w).1.2 ≤ (stats_numbers userId w).1.1.
Proof.
  split; [|split; [apply getStats_numbers | apply stats_numbers_le]].
  destruct (getStats_numbers userId w) as (scans & scanners & codes & Hrun).
  unfold get_stats, try_catch, bind. rewrite Hrun. unfold ret.
  cbn -[number_or parseInt toString stats_numbers].
  by rewrite !number_or_parseInt_toString.
Qed.

(** The counts of a SQLite table with one active row of [alice] that
    expires on a later day and one retired row. *)
Example get_stats_sqlite :
  let w := both_durable 1000
             {["id-1" := with_access_count 3
                           (sample_row "id-1" (Some "alice")
                              (Some 90000000) true);
               "id-2" := sample_row "id-2" (Some "alice") None false]} ∅ in
  (get_stats "" (Some "alice") w).1
  = Normal (mkReply 200 (StatsBody 1 1 3)).
Proof. vm_compute. reflexivity. Qed.

Lemma generateQR_throw uuid image data options e w :
  (generateQR uuid image data options w).1 = Throw e →
  e = "Failed to generate QR code".
Proof.
  unfold generateQR. unfold try_catch at 1.
  match goal with |- context [bind ?c ?k w] => destruct (bind c k w) as [[v|e'] w'] end.
  - discriminate.
  - unfold throw. simpl. by intros [= <-].
Qed.

(** X13. [GET /:id] never reaches the error handler: it answers 400 to an id
    that is not a UUID, without calling the service, 200 with the record
    when Retrieve returns one, and 404 whenever Retrieve fails; the world is
    the one Retrieve left. *)
Theorem get_qr_reply frames is_uuid id info w :
  get_qr frames is_uuid id info w =
  if is_uuid id then
    (match (getQR id info w).1 with
     | Normal v => Normal (mkReply 200 (QrCodeBody v))
     | Throw _ =>
         Normal (mkReply 404 (ErrorBody "QR code not found or expired" None))
     end, (getQR id info w).2)
  else
    (Normal (mkReply 400 (ErrorBody "Invalid QR code ID format" None)), w).
Proof.
  unfold get_qr. destruct (is_uuid id); [|done]. simpl.
  unfold try_catch, bind, ret.
  pose proof (getQR_completion id info w) as Hc.
  destruct (getQR id info w) as [[v|e] w'] eqn:Hg; simpl in *; [done|].
  destruct (cached id w); [done|].
  destruct (Retrieve_walk id w); [done|].
  by injection Hc as ->.
Qed.

(** X14. [DELETE /:id] never reaches the error handler either: 400 to an id
    that is not a UUID, 200 when Delete succeeds, and 404 with the world
    untouched when it fails.  The owner is the one of the body, and that of
    the query string only when the body names none. *)
Theorem delete_qr_reply frames is_uuid id bodyUserId queryUserId w :
  delete_qr frames is_uuid id bodyUserId queryUserId w =
  if is_uuid id then
    match (deleteQR id (or_else bodyUserId queryUserId) w).1 with
    | Normal _ =>
        (Normal (mkReply 200 DeletedBody),
         (deleteQR id (or_else bodyUserId queryUserId) w).2)
    | Throw _ =>
        (Normal (mkReply 404
                   (ErrorBody "QR code not found or access denied" None)), w)
    end
  else
    (Normal (mkReply 400 (ErrorBody "Invalid QR code ID format" None)), w).
Proof.
  unfold delete_qr. destruct (is_uuid id); [|done]. simpl.
  unfold try_catch, bind, ret.
  pose proof (deleteQR_throw id (or_else bodyUserId queryUserId)) as Ht.
  destruct (deleteQR id _ w) as [[v|e] w'] eqn:Hg; simpl in *; [done|].
  destruct (Ht e w) as [-> Hw]; [by rewrite Hg|].
  rewrite Hg in Hw. simpl in Hw. by subst.
Qed.

Lemma post_generate_run uuid image body w :
  generateSchema_valid body = true →
  post_generate uuid image body w =
  let run := generateQR uuid image (default "" (body_data body))
               (mkOptions (body_userId body) (body_metadata body))
               (with_override (body_expiryHours body) w) in
  (match run.1 with
   | Normal v => Normal (Created v)
   | Throw e => Normal (ServerError e)
   end, run.2).
Proof.
  intros Hv. unfold post_generate, with_override. rewrite Hv. simpl.
  js_unfold.
  destruct (body_expiryHours body) as [h|]; [destruct (h =? 0)|].
  all: by destruct (generateQR _ _ _ _ _) as [[v|e] w'].
Qed.

Lemma with_override_tiers h w :
  db (with_override h w) = db w ∧ pool (with_override h w) = pool w ∧
  NODE_ENV (env (with_override h w)) = NODE_ENV (env w) ∧
  clock (with_override h w) = clock w ∧
  memoryStore (with_override h w) = memoryStore w ∧
  client (with_override h w) = client w.
Proof.
  unfold with_override. destruct h as [h|]; [destruct (h =? 0)|]; done.
Qed.

Lemma generate_fails_override uuid image h w :
  generate_fails uuid image (with_override h w) = generate_fails uuid image w.
Proof.
  destruct (with_override_tiers h w) as (Hd & Hp & He & _).
  unfold generate_fails, sqlite_insert_refused, pg_insert_refused,
    sqlite_reachable, pg_reachable, sqlite_table, pg_table, is_production.
  by rewrite Hd, Hp, He.
Qed.

Lemma generateQR_fails uuid image data options w :
  (generateQR uuid image data options w).1 =
  if generate_fails uuid image w then Throw "Failed to generate QR code"
  else Normal (public_view
                 (memory_record uuid (default "" image) data w)).
Proof.
  destruct image as [image|]; simpl.
  - apply generateQR_spec.
  - unfold generateQR. js_unfold. done.
Qed.

(** X15. [POST /generate] answers 400 to a body the schema rejects, and then
    changes nothing, not even the expiry setting.  To a valid body it
    answers 201 with the record, or, exactly when Generate fails, 500 with
    the generic text; the stack of the error is in the body in development
    mode and in no other. *)
Theorem post_generate_reply_status frames uuid image body w :
  ∃ reply w',
    post_generate_reply frames uuid image body w = (Normal reply, w') ∧
    if negb (generateSchema_valid body) then
      reply = mkReply 400 (ErrorBody "Validation failed" None) ∧ w' = w
    else if generate_fails uuid image w then
      reply = mkReply 500
                (ErrorBody "Internal server error"
                   (if bool_decide (NODE_ENV (env w) = Some "development")
                    then Some (stack_of "Failed to generate QR code" frames)
                    else None))
    else
      reply = mkReply 201
                (QrCodeBody
                   (public_view
                      (memory_record uuid (default "" image)
                         (default "" (body_data body))
                         (with_override (body_expiryHours body) w)))).
Proof.
  unfold post_generate_reply.
  destruct (generateSchema_valid body) eqn:Hv; simpl.
  - unfold bind at 1. rewrite post_generate_run by done. cbn zeta.
    pose proof (generateQR_fails uuid image (default "" (body_data body))
                  (mkOptions (body_userId body) (body_metadata body))
                  (with_override (body_expiryHours body) w)) as Hc.
    pose proof (generateQR_env uuid image (default "" (body_data body))
                  (mkOptions (body_userId body) (body_metadata body))
                  (with_override (body_expiryHours body) w)) as He.
    destruct (with_override_tiers (body_expiryHours body) w)
      as (_ & _ & Hmode & _).
    rewrite generate_fails_override in Hc.
    destruct (generateQR _ _ _ _ _) as [c w'].
    simpl in *. subst c.
    destruct (generate_fails uuid image w).
    + eexists _, _. split; [reflexivity|].
      unfold next, errorHandler. simpl. unfold is_production.
      rewrite He, Hmode.
      by destruct (bool_decide (NODE_ENV (env w) = Some "production")).
    + by eexists _, _.
  - unfold post_generate. rewrite Hv. simpl. by eexists _, _.
Qed.

(** X16. The error handler answers 500 only with the generic text, in every
    mode.  The body carries the stack of the error exactly in development
    mode: in any other mode nothing of an error the handler does not
    recognise reaches the client, in development mode its stack does, and
    with it its message.  The handler changes nothing, and its status is one
    of 400, 401, 404, 409, 500 and 503. *)
Theorem errorHandler_generic err w :
  ∃ reply,
    errorHandler err w = (Normal reply, w) ∧
    status reply ∈ [400; 401; 404; 409; 500; 503] ∧
    (status reply = 500 →
     body reply = ErrorBody "Internal server error"
                    (if bool_decide (NODE_ENV (env w) = Some "development")
                     then err_stack err else None)).
Proof.
  unfold errorHandler. eexists. split; [reflexivity|].
  destruct (String.eqb (err_name err) "ValidationError");
    [|destruct (String.eqb (err_name err) "UnauthorizedError");
      [|destruct (bool_decide (err_code err = Some "ECONNREFUSED"));
        [|destruct (bool_decide (err_code err = Some "23505"));
          [|destruct (includes "not found" (err_message err))]]]].
  all: cbn [fst snd status body].
  all: split; [set_solver|].
  all: try (intros; discriminate).
  all: intros _; by destruct (is_production w).
Qed.

Lemma errorHandler_generic_witness :
  let err := mkJsError "Error" None "connect ETIMEDOUT 10.0.0.7:5432"
               (Some (stack_of "connect ETIMEDOUT 10.0.0.7:5432" "")) in
  (errorHandler err (no_tiers (mkEnv None (Some "production")) 0)).1
  = Normal (mkReply 500 (ErrorBody "Internal server error" None)) ∧
  (errorHandler err (no_tiers (mkEnv None (Some "development")) 0)).1
  = Normal (mkReply 500
              (ErrorBody "Internal server error"
                 (Some "Error: connect ETIMEDOUT 10.0.0.7:5432"))).
Proof.
  intros err. split.
  - destruct (errorHandler_generic err
                (no_tiers (mkEnv None (Some "production")) 0))
      as (reply & Hrun & _ & H500).
    rewrite Hrun. simpl. destruct reply as [st bd].
    injection Hrun as Hst Hbd. simpl in H500.
    rewrite <- Hst in H500 |- *. rewrite (H500 eq_refl). reflexivity.
  - destruct (errorHandler_generic err
                (no_tiers (mkEnv None (Some "development")) 0))
      as (reply & Hrun & _ & H500).
    rewrite Hrun. simpl. destruct reply as [st bd].
    injection Hrun as Hst Hbd. simpl in H500.
    rewrite <- Hst in H500 |- *. rewrite (H500 eq_refl). reflexivity.
Defined.

Lemma batch_jobs_spec jobs : ∀ w,
  ∃ results errors w',
    batch_jobs jobs w = (Normal (results, errors), w') ∧
    (length results + length errors = length jobs)%nat ∧
    Forall (λ e, e = "Failed to generate QR code") errors ∧
    env w' = env w ∧
    (is_production w = false → Forall (λ job, is_Some job.1.2) jobs →
     errors = []).
Proof.
  induction jobs as [|[[uuid image] item] rest IH]; intros w.
  - exists [], [], w. done.
  - cbn [batch_jobs].
    unfold bind at 1. unfold try_catch at 1. unfold bind at 1.
    pose proof (generateQR_throw uuid image (default "" (item_data item))
                  (mkOptions (item_userId item) (item_metadata item))) as Ht.
    pose proof (generateQR_env uuid image (default "" (item_data item))
                  (mkOptions (item_userId item) (item_metadata item)) w) as He.
    pose proof (generateQR_spec uuid (default "" image)
                  (default "" (item_data item))
                  (mkOptions (item_userId item) (item_metadata item)) w)
      as (Hc & _).
    destruct (generateQR uuid image _ _ w) as [[v|e] w1] eqn:Hg; simpl in *.
    + unfold ret at 1. unfold bind at 1.
      destruct (IH w1) as (results & errors & w' & -> & Hlen & Hall & Henv & Hprod).
      unfold ret. simpl.
      exists (v :: results), errors, w'. simpl.
      split; [done|]. split; [lia|]. split; [done|].
      split; [by rewrite Henv|].
      intros Hp Himg. apply Hprod.
      * unfold is_production in *. by rewrite He.
      * by inversion Himg.
    + specialize (Ht e w). rewrite Hg in Ht. specialize (Ht eq_refl). subst e.
      unfold ret at 1. unfold bind at 1.
      destruct (IH w1) as (results & errors & w' & -> & Hlen & Hall & Henv & Hprod).
      unfold ret. simpl.
      exists results, ("Failed to generate QR code" :: errors), w'. simpl.
      split; [done|]. split; [lia|]. split; [by constructor|].
      split; [by rewrite Henv|].
      intros Hp Himg. exfalso.
      inversion Himg as [|? ? [i Hi] _]; subst. simpl in Hi. subst image.
      simpl in Hc. rewrite Hg in Hc. simpl in Hc.
      rewrite Hp, andb_false_r in Hc.
      discriminate.
Qed.

(** X17. [POST /batch] answers 400 to a list that is empty, longer than ten
    or holds an invalid item, and then changes nothing.  Otherwise it
    answers 201 and every item is accounted for: the records generated and
    the errors together are as many as the items, a failing item does not
    stop the others, and every error is the generic one.  Outside
    production mode, when every rendering succeeds, all items are
    generated.  The expiry setting is never touched. *)
Theorem post_batch_reply frames jobs w :
  ∃ reply w',
    post_batch frames jobs w = (Normal reply, w') ∧
    env w' = env w ∧
    if batchSchema_valid (snd <$> jobs) then
      ∃ results errors,
        reply = mkReply 201
                  (BatchBody results errors (Z.of_nat (length jobs))
                     (Z.of_nat (length results))) ∧
        (length results + length errors = length jobs)%nat ∧
        Forall (λ e, e = "Failed to generate QR code") errors ∧
        (is_production w = false → Forall (λ job, is_Some job.1.2) jobs →
         errors = [] ∧ length results = length jobs)
    else
      reply = mkReply 400 (ErrorBody "Validation failed" None) ∧ w' = w.
Proof.
  unfold post_batch.
  destruct (batchSchema_valid (snd <$> jobs)); simpl.
  - unfold try_catch, bind.
    destruct (batch_jobs_spec jobs w)
      as (results & errors & w' & -> & Hlen & Hall & Henv & Hprod).
    unfold ret. simpl.
    eexists _, _. split; [reflexivity|]. split; [done|].
    exists results, errors. split; [done|]. split; [done|]. split; [done|].
    intros Hp Himg. specialize (Hprod Hp Himg). subst errors.
    simpl in Hlen. split; [done|lia].
  - by eexists _, _.
Qed.

Lemma post_batch_reply_witness :
  let job (k : string) :=
    (k, Some "AAAA", mkBatchItem (Some "https://x.test") None None) in
  ∃ results,
    (post_batch "" [job "id-1"; job "id-1"; job "id-2"]
       (no_tiers (mkEnv None None) 1000)).1
    = Normal (mkReply 201 (BatchBody results [] 3 3)).
Proof.
  intros job.
  destruct (post_batch_reply "" [job "id-1"; job "id-1"; job "id-2"]
              (no_tiers (mkEnv None None) 1000))
    as (reply & w' & Hrun & _ & Hok).
  change (batchSchema_valid _) with true in Hok. cbn iota in Hok.
  destruct Hok as (results & errors & -> & _ & _ & Hall).
  destruct (Hall eq_refl) as [-> Hlen].
  { repeat constructor; by eexists. }
  exists results. rewrite Hrun. simpl. by rewrite Hlen.
Defined.

(** ** The scan statistics *)

Lemma remove_dups_length_le {A} `{EqDecision A} (l : list A) :
  (length (remove_dups l) ≤ length l)%nat.
Proof.
  induction l as [|x l IH]; simpl; [done|].
  case_match; simpl; [by apply Nat.le_le_succ_r | by apply le_n_S].
Qed.

Lemma omap_length_le {A B} (f : A → option B) (l : list A) :
  (length (omap f l) ≤ length l)%nat.
Proof.
  induction l as [|x l IH]; simpl; [done|].
  destruct (f x); simpl; [by apply le_n_S | by apply Nat.le_le_succ_r].
Qed.

Lemma remove_dups_nil_inv {A} `{EqDecision A} (l : list A) :
  remove_dups l = [] → l = [].
Proof.
  intros Hnil. destruct l as [|x l]; [done|].
  assert (x ∈ remove_dups (x :: l)) as Hin
    by (apply elem_of_remove_dups; left).
  rewrite Hnil in Hin. by apply elem_of_nil in Hin.
Qed.

(** X18. [getScanStats] never throws and changes nothing.  Its three counts
    are consistent: the scanned codes and the distinct scanners are each
    at most the scans, the scans at most the rows of the scan log, and
    there is a scanned code as soon as there is a scan.  When SQLite does
    not answer, all three are zero. *)
Theorem getScanStats_bounds qrId userId w :
  ∃ stats,
    getScanStats qrId userId w = (Normal stats, w) ∧
    0 ≤ ss_scanned_codes stats ≤ ss_total_scans stats ∧
    0 ≤ ss_unique_scanners stats ≤ ss_total_scans stats ∧
    ss_total_scans stats ≤ Z.of_nat (length (sqlite_logs w)) ∧
    (0 < ss_total_scans stats → 0 < ss_scanned_codes stats) ∧
    (sqlite_reachable w = false → stats = no_scans).
Proof.
  unfold getScanStats, sqliteQuery, select_scan_stats, sqlite_reachable,
    sqlite_logs.
  js_unfold.
  destruct w as [e now [[[] t logs]|] p c m]; simpl;
    try (exists no_scans; simpl; repeat split; try done; lia).
  eexists. split; [reflexivity|]. simpl.
  set (joined := scan_join qrId userId (mkSqlite true t logs)).
  pose proof (remove_dups_length_le (qr_id <$> joined)) as H1.
  rewrite length_fmap in H1.
  pose proof (remove_dups_length_le (omap scanner_ip joined)) as H2.
  pose proof (omap_length_le scanner_ip joined) as H3.
  assert (length joined ≤ length logs)%nat as H4.
  { unfold joined, scan_join. simpl. apply List.filter_length_le. }
  repeat split; try lia; try done.
  intros Hpos.
  destruct (remove_dups (qr_id <$> joined)) as [|x l] eqn:Hd; [|simpl; lia].
  apply remove_dups_nil_inv, fmap_nil_inv in Hd. rewrite Hd in Hpos.
  simpl in Hpos. lia.
Qed.

Lemma getScanStats_bounds_witness :
  (getScanStats None None (no_tiers (mkEnv None None) 0)).1 = Normal no_scans.
Proof.
  destruct (getScanStats_bounds None None (no_tiers (mkEnv None None) 0))
    as (stats & Hrun & _ & _ & _ & _ & Hzero).
  rewrite Hrun. simpl. by rewrite (Hzero eq_refl).
Defined.

(** ** The cache never outlives a record *)













(** ** The expiry setting *)

Lemma setCache_clock key value ttl w :
  clock (setCache key value ttl w).2 = clock w.
Proof. destruct (setCache_frame key value ttl w) as (b & c & ->). done. Qed.

Lemma setCache_client_frame key value ttl w1 w2 :
  client w1 = client w2 → clock w1 = clock w2 →
  client (setCache key value ttl w1).2 = client (setCache key value ttl w2).2.
Proof.
  intros Hc Hk. rewrite !setCache_world, Hc, Hk.
  destruct (client w2) as [[op ok ks]|] eqn:Hc2; simpl; [|by rewrite Hc, Hc2].
  destruct (op && ok && (0 <? ttl)); simpl; [done|by rewrite Hc, Hc2].
Qed.

(** The cache after a Generate that rendered: the one write of the new
    record under its key, with the time to live of the setting. *)
Lemma generateQR_client uuid image data options w :
  ∃ r, client (generateQR uuid (Some image) data options w).2
       = client (setCache (cacheKey uuid) r (expiry_hours w * 3600) w).2
       ∨ client (generateQR uuid (Some image) data options w).2 = client w.
Proof.
  assert (∀ r (w1 : World),
    client w1 = client w → clock w1 = clock w →
    client (setCache (cacheKey uuid) r (expiry_hours w * 3600) w1).2
    = client (setCache (cacheKey uuid) r (expiry_hours w * 3600) w).2)
    as Hset by (intros; by apply setCache_client_frame).
  revert Hset.
  unfold generateQR, expiry_hours, is_production, sqliteQuery, query,
    on_qr_codes, insert_qr_code.
  js_unfold.
  break_world w; simpl.
  all: repeat match goal with
       | |- context [@lookup _ _ (gmap string QRRecord) _ ?k ?t] =>
           destruct (t !! k) eqn:?; simpl
       end.
  all: repeat match goal with
       | |- context [bool_decide ?P] => destruct (bool_decide P) eqn:?; simpl
       end.
  all: intros Hset.
  all: first
    [ match goal with
      | |- context [setCache ?k ?r ?t ?w1] =>
          exists r; left;
          rewrite <- (Hset r w1 eq_refl eq_refl);
          by destruct (setCache k r t w1) as [[b|e] w2]
      end
    | exists (sample_row "" None None true); by right ].
Qed.





(** ** One id at a time *)

Lemma getQR_same id info w1 w2 :
  cached id w1 = cached id w2 →
  sqlite_reachable w1 = sqlite_reachable w2 →
  pg_reachable w1 = pg_reachable w2 →
  clock w1 = clock w2 →
  sqlite_table w1 !! id = sqlite_table w2 !! id →
  pg_table w1 !! id = pg_table w2 !! id →
  memoryStore w1 !! id = memoryStore w2 !! id →
  (getQR id info w1).1 = (getQR id info w2).1.
Proof.
  intros Hc Hrs Hrp Hk Hs Hp Hm.
  rewrite !getQR_completion, Hc. unfold Retrieve_walk, durable_lookup.
  by rewrite Hrs, Hrp, Hk, Hs, Hp, Hm.
Qed.

Lemma cacheKey_inj id1 id2 : cacheKey id1 = cacheKey id2 → id1 = id2.
Proof. unfold cacheKey. intros H. by simplify_eq/=. Qed.

Lemma cached_setCache_ne id' id r ttl w :
  id' ≠ id → cached id' (setCache (cacheKey id) r ttl w).2 = cached id' w.
Proof.
  intros Hne. rewrite setCache_world. unfold cached.
  destruct (client w) as [[op ok ks]|] eqn:Hc; simpl; [|by rewrite Hc].
  destruct (op && ok && (0 <? ttl)) eqn:Hu; simpl; [|by rewrite Hc].
  rewrite lookup_insert_ne; [done|].
  intros Hk. by apply cacheKey_inj in Hk.
Qed.

Lemma cached_deleteCache_ne id' id w :
  id' ≠ id → cached id' (deleteCache (cacheKey id) w).2 = cached id' w.
Proof.
  intros Hne. rewrite deleteCache_world. unfold cached.
  destruct (client w) as [[op ok ks]|] eqn:Hc; simpl; [|by rewrite Hc].
  destruct (op && ok) eqn:Hu; simpl; [|by rewrite Hc; simpl; rewrite Hu].
  rewrite Hu, lookup_delete_ne; [done|].
  intros Hk. by apply cacheKey_inj in Hk.
Qed.

Lemma deleteQuery_other_key id userId k (t : gmap string QRRecord) :
  k ≠ id → (deleteQuery id userId t).1 !! k = t !! k.
Proof.
  intros Hne. unfold deleteQuery, update_retire_owned, update_retire.
  destruct (truthy userId), (t !! id) as [r|]; simpl; try done.
  - destruct (user_id_is userId r); simpl; [|done].
    by rewrite lookup_insert_ne.
  - by rewrite lookup_insert_ne.
Qed.

(** What the two side operations of a Retrieve leave alone. *)
Lemma side_operations_other id info k w :
  k ≠ id →
  sqlite_reachable (incrementAccessCount id (logScan id info w).2).2
    = sqlite_reachable w ∧
  pg_reachable (incrementAccessCount id (logScan id info w).2).2
    = pg_reachable w ∧
  clock (incrementAccessCount id (logScan id info w).2).2 = clock w ∧
  sqlite_table (incrementAccessCount id (logScan id info w).2).2 !! k
    = sqlite_table w !! k ∧
  pg_table (incrementAccessCount id (logScan id info w).2).2 !! k
    = pg_table w !! k ∧
  memoryStore (incrementAccessCount id (logScan id info w).2).2 !! k
    = memoryStore w !! k.
Proof.
  intros Hne. rewrite incrementAccessCount_world, logScan_world.
  unfold sqlite_reachable, pg_reachable, sqlite_table, pg_table, sqlite_logs.
  break_world w; simpl.
  all: rewrite ?update_access_count_lookup, ?decide_False by done.
  all: try done.
  all: destruct (_ !! id) as [r|]; simpl; rewrite ?lookup_insert_ne; done.
Qed.

(** X21. One id at a time.  Generate, Retrieve and Delete of one id never
    change what Retrieve returns for another: its cache entry, its rows and
    its memory entry are as before. *)
Theorem other_ids_untouched id id' info' w :
  id' ≠ id →
  (∀ image data options,
     (getQR id' info' (generateQR id image data options w).2).1
     = (getQR id' info' w).1) ∧
  (∀ info,
     (getQR id' info' (getQR id info w).2).1 = (getQR id' info' w).1) ∧
  (∀ userId,
     (getQR id' info' (deleteQR id userId w).2).1 = (getQR id' info' w).1).
Proof.
  intros Hne. split; [|split].
  - intros [image|] data options;
      [|unfold generateQR; js_unfold; done].
    destruct (generateQR_effects id image data options w)
      as (Hrs & Hrp & Hclock & _ & Hs & Hp & _).
    destruct (generateQR_spec id image data options w) as (_ & Hm & _).
    apply getQR_same; try done.
    + destruct (generateQR_client id image data options w) as (r & [Hcl|Hcl]).
      * rewrite (cached_frame id' _
                   (setCache (cacheKey id) r (expiry_hours w * 3600) w).2);
          [|done|by rewrite Hclock, setCache_clock].
        by apply cached_setCache_ne.
      * by apply cached_frame.
    + rewrite Hs. destruct (sqlite_insert_refused id w); [done|].
      by rewrite lookup_insert_ne.
    + rewrite Hp.
      destruct (negb (sqlite_insert_refused id w) || pg_insert_refused id w);
        [done|].
      by rewrite lookup_insert_ne.
    + rewrite Hm.
      destruct (sqlite_insert_refused id w && pg_insert_refused id w);
        [|done].
      by rewrite lookup_insert_ne.
  - intros info. rewrite (getQR_run id info w).
    destruct (cached id w) as [r|]; simpl.
    { destruct (side_operations_other id info id' w Hne)
        as (? & ? & ? & ? & ? & ?).
      apply getQR_same; try done. apply side_operations_keep_cache. }
    destruct (Retrieve_walk id w) as [r|]; simpl.
    + destruct (side_operations_other id info id'
                  (setCache (cacheKey id) r (cache_ttl (clock w) r) w).2 Hne)
        as (H1 & H2 & H3 & H4 & H5 & H6).
      pose proof (cached_setCache_ne id' id r (cache_ttl (clock w) r) w Hne)
        as Hcs.
      destruct (setCache_frame (cacheKey id) r (cache_ttl (clock w) r) w)
        as (b & c & Hset).
      rewrite Hset in *. simpl in *.
      apply getQR_same; try done.
      by rewrite side_operations_keep_cache.
    + destruct (memoryStore w !! id); [|done].
      apply getQR_same; try done. simpl. by rewrite lookup_delete_ne.
  - intros userId.
    destruct (deleteQR_spec id userId w) as (Hc & Hm & Hrs & Hrp & Hs & Hp).
    destruct (durable_retired id userId w
              || bool_decide (is_Some (memoryStore w !! id))).
    + destruct (deleteQR_client id userId w Hc) as [Hclock Hclient].
      apply getQR_same; try done.
      * rewrite (cached_frame id' _ (deleteCache (cacheKey id) w).2);
          [|done|].
        -- by apply cached_deleteCache_ne.
        -- rewrite Hclock.
           by destruct (deleteCache_frame (cacheKey id) w) as (? & ? & ->).
      * rewrite Hs. destruct (sqlite_reachable w); [|done].
        by apply deleteQuery_other_key.
      * rewrite Hp. destruct (sqlite_reachable w); [done|].
        destruct (pg_reachable w); [|done].
        by apply deleteQuery_other_key.
      * rewrite Hm. by rewrite lookup_delete_ne.
    + by destruct (deleteQR_throw id userId _ w Hc) as [_ ->].
Qed.

Lemma other_ids_untouched_witness :
  (getQR "id-A" anonymous (deleteQR "id-B" None after_generate).2).1
  = (getQR "id-A" anonymous after_generate).1.
Proof.
  destruct (other_ids_untouched "id-B" "id-A" anonymous after_generate)
    as (_ & _ & Hdel); [discriminate|].
  apply Hdel.
Defined.

(** ** The health routes *)

Lemma health_detailed_run w :
  health_detailed w =
  (Normal (mkReply (if pg_reachable w && redis_usable w then 200 else 503)
             (HealthBody
                (if pg_reachable w && redis_usable w then "healthy"
                 else "degraded")
                (dependency (pg_reachable w))
                (dependency (redis_usable w)))), w).
Proof.
  unfold health_detailed, pool_select_1, getRedisClient, client_ping,
    pg_reachable, redis_usable.
  js_unfold.
  destruct w as [e now d [[[] pt]|] [[[] [] ks]|] m]; done.
Qed.

(** X22. [GET /health/detailed] looks at PostgreSQL and Redis only: it
    answers 200 exactly when both answer, whatever the state of SQLite, and
    changes nothing.  When it answers 200, a Generate under a fresh id
    whose rendering succeeds returns the record and writes its row to a
    durable tier, SQLite when it answers and PostgreSQL otherwise; the
    other durable tier and the memory store are left as they were. *)
Theorem healthy_means_durable uuid image data options reply w :
  (health_detailed w).1 = Normal reply →
  status reply = 200 →
  sqlite_table w !! uuid = None →
  pg_table w !! uuid = None →
  pg_reachable w = true ∧ redis_usable w = true ∧
  (health_detailed w).2 = w ∧
  (generateQR uuid (Some image) data options w).1
    = Normal (public_view (memory_record uuid image data w)) ∧
  memoryStore (generateQR uuid (Some image) data options w).2
    = memoryStore w ∧
  (if sqlite_reachable w then
     sqlite_table (generateQR uuid (Some image) data options w).2
       = <[uuid := durable_record SQLite uuid image data options w]>
           (sqlite_table w) ∧
     pg_table (generateQR uuid (Some image) data options w).2 = pg_table w
   else
     pg_table (generateQR uuid (Some image) data options w).2
       = <[uuid := durable_record PostgreSQL uuid image data options w]>
           (pg_table w) ∧
     sqlite_table (generateQR uuid (Some image) data options w).2
       = sqlite_table w).
Proof.
  rewrite health_detailed_run. simpl. intros [= <-]. simpl.
  destruct (pg_reachable w) eqn:Hp; [|done].
  destruct (redis_usable w) eqn:Hr; [|done].
  intros _ Hfs Hfp.
  destruct (generateQR_spec uuid image data options w) as (Hc & Hm & _).
  destruct (generateQR_effects uuid image data options w)
    as (_ & _ & _ & _ & Hs & Hpg & _).
  unfold sqlite_insert_refused, pg_insert_refused in *.
  rewrite (fresh_not_refused _ _ _ Hfs), (fresh_not_refused _ _ _ Hfp) in *.
  rewrite Hp in *. simpl in *. rewrite andb_false_r in *.
  rewrite orb_false_r, negb_involutive in Hpg.
  destruct (sqlite_reachable w); simpl in *; done.
Qed.

Lemma healthy_means_durable_witness :
  let w := mkWorld (mkEnv None (Some "production")) 1000 None
             (Some (mkPostgres true ∅)) (Some (mkRedis true true ∅)) ∅ in
  (generateQR "id-1" (Some "AAAA") "https://x.test" (mkOptions None None)
     w).1
  = Normal (mkPublicQR "id-1" "https://x.test" "data:image/png;base64,AAAA"
              (Instant 1000) (Some 86401000) 0) ∧
  is_Some (pg_table
             (generateQR "id-1" (Some "AAAA") "https://x.test"
                (mkOptions None None) w).2 !! "id-1").
Proof.
  intros w.
  destruct (healthy_means_durable "id-1" "AAAA" "https://x.test"
              (mkOptions None None)
              (mkReply 200 (HealthBody "healthy" "healthy" "healthy")) w)
    as (_ & _ & _ & Hrun & _ & Hrow & _); try reflexivity.
  split; [exact Hrun|]. cbn [sqlite_reachable db w] in Hrow.
  rewrite Hrow, lookup_insert_eq. eauto.
Defined.

(** X23. [GET /health/ready] answers 503 exactly when PostgreSQL is
    configured and does not answer, or Redis is open and does not answer.
    A dependency that is not configured is not counted against it: with
    neither PostgreSQL nor Redis it answers 200 with no service checked,
    and SQLite is never looked at.  It changes nothing. *)
Theorem health_ready_reply w :
  let pg_failing := bool_decide (is_Some (pool w)) && negb (pg_reachable w) in
  let redis_failing :=
    bool_decide (is_Some (getRedisClient w)) && negb (redis_usable w) in
  ∃ reply,
    health_ready w = (Normal reply, w) ∧
    status reply = (if pg_failing || redis_failing then 503 else 200) ∧
    (status reply = 200 →
     body reply =
       ReadyBody ((if bool_decide (is_Some (pool w)) then 1 else 0)
                  + (if bool_decide (is_Some (getRedisClient w)) then 1
                     else 0))).
Proof.
  unfold health_ready, pool_select_1, getRedisClient, client_ping,
    pg_reachable, redis_usable.
  js_unfold.
  destruct w as [e now d [[[] pt]|] [[[] [] ks]|] m]; simpl.
  all: eexists; split; [reflexivity|]; split; try done.
Qed.

Lemma health_ready_reply_witness :
  (health_ready (sqlite_only (mkEnv None None) 0)).1
  = Normal (mkReply 200 (ReadyBody 0)).
Proof.
  destruct (health_ready_reply (sqlite_only (mkEnv None None) 0))
    as (reply & Hrun & Hst & Hbody).
  rewrite Hrun. simpl. destruct reply as [st bd]. simpl in *.
  rewrite Hst in *. by rewrite (Hbody eq_refl).
Defined.
